(** * Acquisition orchestration of the scraper: strategies, fallback, jobs

    A shallow embedding of [src/scrapers/manager.py], [src/scrapers/base.py]
    and [src/database.py].  Python objects with mutable attributes become
    records threaded through a state-and-exception monad; [async] bodies
    become event-loop steps on the task stored in the active-job table. *)

From stdpp Require Import base decidable option list strings gmap fin_maps.
From Stdlib Require Import ZArith Ascii String Lia.

Open Scope string_scope.
Open Scope list_scope.

(** ** models.py *)

Inductive Platform := REDDIT | TWITTER.

Inductive ScrapingStrategy := API | WEB | BROWSER | FEED | ALTERNATIVE.

#[global] Instance Platform_eq_dec : EqDecision Platform.
Proof. solve_decision. Defined.

#[global] Instance ScrapingStrategy_eq_dec : EqDecision ScrapingStrategy.
Proof. solve_decision. Defined.

(** The [value] of the string enums. *)
Definition Platform_value (p : Platform) : string :=
  match p with REDDIT => "reddit" | TWITTER => "twitter" end.

Definition ScrapingStrategy_value (s : ScrapingStrategy) : string :=
  match s with
  | API => "api" | WEB => "web" | BROWSER => "browser"
  | FEED => "feed" | ALTERNATIVE => "alternative"
  end.

(** [ScrapedPost]: the fields the orchestration layer reads. *)
Record ScrapedPost := mkPost {
  post_id : string;
  post_platform : Platform;
  post_author : string;
  post_content : string;
  post_url : string
}.

(** [ScrapingJob]. *)
Record ScrapingJob := mkJob {
  job_id : string;
  platform : Platform;
  target : string;
  max_posts : Z;
  include_comments : bool;
  keywords : list string;
  job_status : string
}.

(** ** Exceptions

    [str(e)] is all the orchestration layer ever keeps of an exception raised
    by a scraper, so such an exception is its message. *)

Inductive exn :=
| ValueError (msg : string)
| KeyError (key : string)
| AttributeError (name : string)
| IntegrityError (key : string)
| CancelledError
| ScraperError (msg : string)
| AllStrategiesFailed (what : string) (p : Platform) (last_error : option string)
| OverflowError (msg : string).

(** [except Exception] does not catch [asyncio.CancelledError]. *)
Definition is_Exception (e : exn) : bool :=
  match e with CancelledError => false | _ => true end.

Definition exn_str (e : exn) : string :=
  match e with
  | ValueError m => m
  | KeyError k => k
  | AttributeError n => n
  | IntegrityError k => "UNIQUE constraint failed: " +:+ k
  | CancelledError => ""
  | ScraperError m => m
  | AllStrategiesFailed what p last =>
      "All " +:+ what +:+ " strategies failed for " +:+ Platform_value p +:+
      ". Last error: " +:+ default "None" last
  | OverflowError m => m
  end.

(** ** Scrapers

    An async generator is drained into the list of items it yields before it
    either stops or raises. *)

Record stream (A : Type) := mkStream {
  yielded : list A;
  failure : option string
}.
Arguments mkStream {A} _ _.
Arguments yielded {A} _.
Arguments failure {A} _.

Inductive ScraperClass :=
  RedditScraper | RedditWebScraper | RedditFeedScraper | TwitterScraper.

(** What a scraper instance does on the network is given by its fetch
    functions; which methods exist is fixed by its class. *)
Record Scraper := mkScraper {
  cls : ScraperClass;
  fetch_posts : string -> Z -> stream ScrapedPost;
  fetch_search : string -> Z -> stream ScrapedPost;
  fetch_comments : string -> stream ScrapedPost
}.

(** [hasattr(scraper, 'scrape_search')]: [RedditWebScraper] and
    [RedditFeedScraper] define the method, [RedditScraper] (whose search is
    called [search_posts]) and [TwitterScraper] do not. *)
Definition has_scrape_search (s : Scraper) : bool :=
  match cls s with
  | RedditWebScraper | RedditFeedScraper => true
  | RedditScraper | TwitterScraper => false
  end.

Definition scrape_posts (s : Scraper) (tgt : string) (n : Z) : stream ScrapedPost :=
  fetch_posts s tgt n.

(** [RedditFeedScraper.scrape_search] is [return; yield]: an empty generator. *)
Definition scrape_search (s : Scraper) (q : string) (n : Z) : stream ScrapedPost :=
  match cls s with
  | RedditFeedScraper => mkStream [] None
  | _ => fetch_search s q n
  end.

Definition scrape_comments (s : Scraper) (pid : string) : stream ScrapedPost :=
  match cls s with
  | RedditFeedScraper => mkStream [] None
  | _ => fetch_comments s pid
  end.

(** ** The manager's state

    A per-platform registry is a Python dict: keys in insertion order. *)

Definition registry := list (ScrapingStrategy * Scraper).

Fixpoint registry_get (r : registry) (s : ScrapingStrategy) : option Scraper :=
  match r with
  | [] => None
  | (k, v) :: r' => if decide (k = s) then Some v else registry_get r' s
  end.

Definition registry_keys (r : registry) : list ScrapingStrategy := r.*1.

Inductive Coroutine :=
| run_job_with_fallback_coro (job : ScrapingJob) (preferred : option ScrapingStrategy)
| run_scraping_job_coro (scraper : Scraper) (job : ScrapingJob).

(** A task is [Scheduled] until the event loop first enters its body,
    [Suspended] while its body waits on the network, then done. *)
Inductive TaskState := Scheduled | Suspended | Finished | Cancelled.

Record Task := mkTask { coro : Coroutine; task_state : TaskState }.

Definition task_done (t : Task) : bool :=
  match task_state t with
  | Finished | Cancelled => true
  | Scheduled | Suspended => false
  end.

(** ** database.py *)

(** A row of [scraping_jobs]. *)
Record ScrapingJobDB := mkJobRow {
  row_job_id : string;
  row_platform : string;
  row_target : string;
  row_max_posts : Z;
  row_include_comments : bool;
  row_keywords : list string;
  row_status : string;
  row_posts_scraped : Z;
  row_comments_scraped : Z;
  row_errors : list string;
  row_started_at : option Z;
  row_completed_at : option Z;
  row_success : bool
}.

(** [scraped_posts] is a list of rows: that no two of them share the primary
    key [id] is what [save_post] has to maintain, not a property of the type.
    [scraping_jobs] is only ever read and written through its key. *)
Record Database := mkDb {
  scraped_posts : list ScrapedPost;
  scraping_jobs : gmap string ScrapingJobDB
}.

(** The keyword arguments of [update_job_status]; [None] is an argument that
    was not passed. *)
Record JobUpdate := mkUpdate {
  upd_started_at : option Z;
  upd_completed_at : option Z;
  upd_posts_scraped : option Z;
  upd_comments_scraped : option Z;
  upd_success : option bool;
  upd_errors : option (list string)
}.

Definition apply_update (status : string) (u : JobUpdate) (r : ScrapingJobDB) : ScrapingJobDB :=
  {| row_job_id := row_job_id r;
     row_platform := row_platform r;
     row_target := row_target r;
     row_max_posts := row_max_posts r;
     row_include_comments := row_include_comments r;
     row_keywords := row_keywords r;
     row_status := status;
     row_posts_scraped := default (row_posts_scraped r) (upd_posts_scraped u);
     row_comments_scraped := default (row_comments_scraped r) (upd_comments_scraped u);
     row_errors := default (row_errors r) (upd_errors u);
     row_started_at := from_option Some (row_started_at r) (upd_started_at u);
     row_completed_at := from_option Some (row_completed_at r) (upd_completed_at u);
     row_success := default (row_success r) (upd_success u) |}.

(** ** The world: manager, database, clock

    The attributes that [__init__] gives an [EnhancedScraperManager]:
    [strategies] and [active_jobs], both empty at first.  There is no
    attribute [scrapers]: [start_job] and the manager's [health_check] read
    [self.scrapers], which no code of the repository assigns. *)

Record Manager := mkManager {
  strategies : list (Platform * registry);
  active_jobs : gmap string Task
}.

Fixpoint assoc_get {K V} `{EqDecision K} (l : list (K * V)) (k : K) : option V :=
  match l with
  | [] => None
  | (k', v) :: l' => if decide (k' = k) then Some v else assoc_get l' k
  end.

(** The scrapers a call went to, in the order it went to them. *)
Inductive NetCall :=
| called_scrape_posts (p : Platform) (s : ScrapingStrategy)
| called_scrape_search (p : Platform) (s : ScrapingStrategy).

Record World := mkWorld {
  manager : Manager;
  database : Database;
  utcnow : Z;
  network : list NetCall
}.

Definition with_manager (f : Manager -> Manager) (w : World) : World :=
  mkWorld (f (manager w)) (database w) (utcnow w) (network w).

Definition with_database (f : Database -> Database) (w : World) : World :=
  mkWorld (manager w) (f (database w)) (utcnow w) (network w).

Definition with_call (c : NetCall) (w : World) : World :=
  mkWorld (manager w) (database w) (utcnow w) (network w ++ [c]).

Definition set_active_jobs (a : gmap string Task) (m : Manager) : Manager :=
  mkManager (strategies m) a.

(** ** A state and exception monad for method bodies *)

Inductive outcome (A : Type) :=
| Return (a : A)
| Raise (e : exn).
Arguments Return {A} _.
Arguments Raise {A} _.

Definition Py (A : Type) : Type := World -> outcome A * World.

Definition ret {A} (a : A) : Py A := fun w => (Return a, w).
Definition raise {A} (e : exn) : Py A := fun w => (Raise e, w).

Definition bind {A B} (m : Py A) (k : A -> Py B) : Py B :=
  fun w =>
    match m w with
    | (Return a, w') => k a w'
    | (Raise e, w') => (Raise e, w')
    end.

(** [try: m except Exception as e: h e]. *)
Definition try_except {A} (m : Py A) (h : exn -> Py A) : Py A :=
  fun w =>
    match m w with
    | (Return a, w') => (Return a, w')
    | (Raise e, w') => if is_Exception e then h e w' else (Raise e, w')
    end.

(** [try: m finally: f]. *)
Definition try_finally {A} (m : Py A) (f : Py unit) : Py A :=
  fun w =>
    match m w with
    | (r, w') =>
        match f w' with
        | (Return _, w'') => (r, w'')
        | (Raise e, w'') => (Raise e, w'')
        end
    end.

Definition get_world : Py World := fun w => (Return w, w).
Definition modify (f : World -> World) : Py unit := fun w => (Return tt, f w).

Declare Scope py_scope.
Delimit Scope py_scope with py.

Notation "x <- m ;; k" := (bind m (fun x => k))
  (at level 100, m at next level, right associativity) : py_scope.
Notation "m ;;; k" := (bind m (fun _ => k))
  (at level 100, right associativity) : py_scope.

Open Scope py_scope.

(** ** DatabaseManager *)

(** [save_post]: [db.add(post); db.commit()] is an INSERT; the commit fails
    on a primary key that is already in the table and the session is
    discarded. *)
Definition has_post (pid : string) (db : Database) : bool :=
  bool_decide (pid ∈ post_id <$> scraped_posts db).

Definition save_post (post : ScrapedPost) : Py string :=
  w <- get_world ;;
  if has_post (post_id post) (database w)
  then raise (IntegrityError (post_id post))
  else
    modify (with_database (fun db =>
      mkDb (scraped_posts db ++ [post]) (scraping_jobs db))) ;;;
    ret (post_id post).

Definition job_row (job : ScrapingJob) : ScrapingJobDB :=
  {| row_job_id := job_id job;
     row_platform := Platform_value (platform job);
     row_target := target job;
     row_max_posts := max_posts job;
     row_include_comments := include_comments job;
     row_keywords := keywords job;
     row_status := job_status job;
     row_posts_scraped := 0;
     row_comments_scraped := 0;
     row_errors := [];
     row_started_at := None;
     row_completed_at := None;
     row_success := false |}.

Definition save_job (job : ScrapingJob) : Py string :=
  w <- get_world ;;
  match scraping_jobs (database w) !! job_id job with
  | Some _ => raise (IntegrityError (job_id job))
  | None =>
      modify (with_database (fun db =>
        mkDb (scraped_posts db) (<[job_id job := job_row job]> (scraping_jobs db)))) ;;;
      ret (job_id job)
  end.

(** [update_job_status]: nothing happens when the query finds no row. *)
Definition update_job_status (jid status : string) (u : JobUpdate) : Py unit :=
  modify (with_database (fun db =>
    match scraping_jobs db !! jid with
    | Some r => mkDb (scraped_posts db) (<[jid := apply_update status u r]> (scraping_jobs db))
    | None => db
    end)).

Definition db_get_job_status (jid : string) : Py (option ScrapingJobDB) :=
  w <- get_world ;; ret (scraping_jobs (database w) !! jid).

Definition now : Py Z := w <- get_world ;; ret (utcnow w).

(** ** EnhancedScraperManager: fallback orchestration *)

(** Lines 117-130: the order in which strategies are tried.  Each [for] loop
    appends to [strategies_to_try]. *)
Definition strategies_to_try
    (preferred_strategy : option ScrapingStrategy)
    (available_strategies : list ScrapingStrategy) : list ScrapingStrategy :=
  let default_order := [WEB; FEED; API] in
  match preferred_strategy with
  | Some preferred =>
      if bool_decide (preferred ∈ available_strategies) then
        fold_left
          (fun acc strategy =>
             if bool_decide (strategy ≠ preferred)
                && bool_decide (strategy ∈ available_strategies)
             then acc ++ [strategy] else acc)
          [WEB; FEED; API] [preferred]
      else
        fold_left
          (fun acc strategy =>
             if bool_decide (strategy ∈ available_strategies)
             then acc ++ [strategy] else acc)
          default_order []
  | None =>
      fold_left
        (fun acc strategy =>
           if bool_decide (strategy ∈ available_strategies)
           then acc ++ [strategy] else acc)
        default_order []
  end.

(** [self.strategies[platform][strategy]]. *)
Definition get_scraper (p : Platform) (s : ScrapingStrategy) : Py Scraper :=
  w <- get_world ;;
  match assoc_get (strategies (manager w)) p with
  | None => raise (KeyError (Platform_value p))
  | Some reg =>
      match registry_get reg s with
      | None => raise (KeyError (ScrapingStrategy_value s))
      | Some scraper => ret scraper
      end
  end.

(** [posts = []; async for post in gen: posts.append(post)]. *)
Definition drain (c : NetCall) (gen : stream ScrapedPost) : Py (list ScrapedPost) :=
  modify (with_call c) ;;;
  match failure gen with
  | Some e => raise (ScraperError e)
  | None => ret (yielded gen)
  end.

(** One round of the loop of lines 137-156: the posts of the strategy, or the
    message of the exception that the [except] clause caught. *)
Definition attempt_strategy (p : Platform) (tgt : string) (n : Z)
    (strategy : ScrapingStrategy) : Py (list ScrapedPost + string) :=
  try_except
    (scraper <- get_scraper p strategy ;;
     posts <- drain (called_scrape_posts p strategy) (scrape_posts scraper tgt n) ;;
     ret (inl posts))
    (fun e => ret (inr (exn_str e))).

Fixpoint fallback_loop (p : Platform) (tgt : string) (n : Z)
    (todo : list ScrapingStrategy) (last_error : option string)
    : Py (list ScrapedPost) :=
  match todo with
  | [] => raise (AllStrategiesFailed "scraping" p last_error)
  | strategy :: rest =>
      r <- attempt_strategy p tgt n strategy ;;
      match r with
      | inl [] => fallback_loop p tgt n rest last_error
      | inl posts => ret posts
      | inr e => fallback_loop p tgt n rest (Some e)
      end
  end.

Definition scrape_with_fallback (p : Platform) (tgt : string) (n : Z)
    (preferred_strategy : option ScrapingStrategy) : Py (list ScrapedPost) :=
  w <- get_world ;;
  match assoc_get (strategies (manager w)) p with
  | None => raise (ValueError "No scrapers available")
  | Some reg =>
      let available_strategies := registry_keys reg in
      match available_strategies with
      | [] => raise (ValueError "No working scrapers available")
      | _ =>
          match strategies_to_try preferred_strategy available_strategies with
          | [] => raise (ValueError "No strategies available")
          | todo => fallback_loop p tgt n todo None
          end
      end
  end.

(** Lines 172-191 of [scrape_search_with_fallback]. *)
Definition search_capable_strategies (reg : registry) : list ScrapingStrategy :=
  fold_left
    (fun acc strategy =>
       match registry_get reg strategy with
       | Some scraper => if has_scrape_search scraper then acc ++ [strategy] else acc
       | None => acc
       end)
    (registry_keys reg) [].

Definition search_strategies_to_try
    (preferred_strategy : option ScrapingStrategy)
    (capable : list ScrapingStrategy) : list ScrapingStrategy :=
  match preferred_strategy with
  | Some preferred =>
      if bool_decide (preferred ∈ capable) then
        fold_left
          (fun acc strategy =>
             if bool_decide (strategy ≠ preferred) then acc ++ [strategy] else acc)
          capable [preferred]
      else capable
  | None => capable
  end.

Definition attempt_search (p : Platform) (q : string) (n : Z)
    (strategy : ScrapingStrategy) : Py (list ScrapedPost + string) :=
  try_except
    (scraper <- get_scraper p strategy ;;
     posts <- drain (called_scrape_search p strategy) (scrape_search scraper q n) ;;
     ret (inl posts))
    (fun e => ret (inr (exn_str e))).

Fixpoint search_loop (p : Platform) (q : string) (n : Z)
    (todo : list ScrapingStrategy) (last_error : option string)
    : Py (list ScrapedPost) :=
  match todo with
  | [] => raise (AllStrategiesFailed "search" p last_error)
  | strategy :: rest =>
      r <- attempt_search p q n strategy ;;
      match r with
      | inl [] => search_loop p q n rest last_error
      | inl posts => ret posts
      | inr e => search_loop p q n rest (Some e)
      end
  end.

Definition scrape_search_with_fallback (p : Platform) (q : string) (n : Z)
    (preferred_strategy : option ScrapingStrategy) : Py (list ScrapedPost) :=
  w <- get_world ;;
  match assoc_get (strategies (manager w)) p with
  | None => raise (ValueError "No scrapers available")
  | Some reg =>
      match search_capable_strategies reg with
      | [] => raise (ValueError "No search-capable scrapers available")
      | capable => search_loop p q n (search_strategies_to_try preferred_strategy capable) None
      end
  end.

(** ** BaseScraper: keyword filter and job body *)

(** A [str] is the string of its UTF-8 bytes.  [needle in hay] on [str]:
    a UTF-8 string occurs in another as a string of bytes exactly when it
    does as a string of code points. *)
Fixpoint contains (needle hay : string) : bool :=
  String.prefix needle hay ||
  match hay with
  | EmptyString => false
  | String _ hay' => contains needle hay'
  end.

(** [str.lower] on a string of ASCII characters, which is what the sample
    data are made of: the letters [A]-[Z] go to [a]-[z]. *)
Definition ascii_lower (c : ascii) : ascii :=
  let n := nat_of_ascii c in
  if (65 <=? n)%nat && (n <=? 90)%nat then ascii_of_nat (n + 32) else c.

Fixpoint lower_ascii (s : string) : string :=
  match s with
  | EmptyString => EmptyString
  | String c s' => String (ascii_lower c) (lower_ascii s')
  end.

Section Python.

(** [str.lower]: the lowercase mapping of the Unicode character database of
    the interpreter.  Nothing below depends on what it does to a string. *)
Variable lower : string → string.

Definition _matches_keywords (content : string) (kws : list string) : bool :=
  let content_lower := lower content in
  existsb (fun keyword => contains (lower keyword) content_lower) kws.

(** [ScrapingResult], also the local counters of [run_scraping_job]. *)
Record ScrapingResult := mkResult {
  posts_scraped : Z;
  comments_scraped : Z;
  errors : list string;
  success : bool
}.

Definition add_error (r : ScrapingResult) (e : string) : ScrapingResult :=
  mkResult (posts_scraped r) (comments_scraped r) (errors r ++ [e]) (success r).

Definition count_post (r : ScrapingResult) : ScrapingResult :=
  mkResult (posts_scraped r + 1) (comments_scraped r) (errors r) (success r).

Definition count_comment (r : ScrapingResult) : ScrapingResult :=
  mkResult (posts_scraped r) (comments_scraped r + 1) (errors r) (success r).

(** [try: m except Exception as e: ...] with the exception made a value. *)
Definition attempt {A} (m : Py A) : Py (A + exn) :=
  try_except (a <- m ;; ret (inl a)) (fun e => ret (inr e)).

Fixpoint for_each {A S} (body : S -> A -> Py S) (l : list A) (s : S) : Py S :=
  match l with
  | [] => ret s
  | a :: l' => s' <- body s a ;; for_each body l' s'
  end.

(** Lines 149-156. *)
Definition save_comment (r : ScrapingResult) (comment : ScrapedPost) : Py ScrapingResult :=
  x <- attempt (save_post comment) ;;
  match x with
  | inl _ => ret (count_comment r)
  | inr e => ret (add_error r ("Comment save error: " +:+ exn_str e))
  end.

(** Lines 137-163, one post.  An exception of [save_post], or of the comment
    generator, reaches the [except] of line 161 with the counters as they
    are at that point. *)
Definition process_post (scraper : Scraper) (job : ScrapingJob)
    (r : ScrapingResult) (post : ScrapedPost) : Py ScrapingResult :=
  if negb (bool_decide (keywords job = []))
     && negb (_matches_keywords (post_content post) (keywords job))
  then ret r
  else
    x <- attempt (save_post post) ;;
    match x with
    | inr e => ret (add_error r ("Post processing error: " +:+ exn_str e))
    | inl _ =>
        let r1 := count_post r in
        if include_comments job then
          let comments := scrape_comments scraper (post_id post) in
          r2 <- for_each save_comment (yielded comments) r1 ;;
          match failure comments with
          | Some e => ret (add_error r2 ("Post processing error: " +:+ e))
          | None => ret r2
          end
        else ret r1
    end.

(** [run_scraping_job] up to its first suspension point (line 124). *)
Definition run_scraping_job_enter (job : ScrapingJob) : Py unit :=
  t <- now ;;
  update_job_status (job_id job) "running"
    (mkUpdate (Some t) None None None None None).

(** [run_scraping_job] from its first suspension point on; [resumed] is what
    the event loop sends into the coroutine there: nothing, or a
    [CancelledError].  The generator of [scrape_posts] raising is the one
    exception that reaches the [except] of line 183.  The counters of the
    loop are local variables, copied into [result] after the loop (lines
    165-166): on the failure path [result] still has the zeros it was
    built with. *)
Definition run_scraping_job_resume (resumed : Py unit) (scraper : Scraper)
    (job : ScrapingJob) : Py ScrapingResult :=
  resumed ;;;
  let posts := scrape_posts scraper (target job) (max_posts job) in
  r <- for_each (process_post scraper job) (yielded posts) (mkResult 0 0 [] false) ;;
  t <- now ;;
  match failure posts with
  | None =>
      update_job_status (job_id job) "completed"
        (mkUpdate None (Some t) (Some (posts_scraped r)) (Some (comments_scraped r))
                  (Some true) (Some (errors r))) ;;;
      ret (mkResult (posts_scraped r) (comments_scraped r) (errors r) true)
  | Some e =>
      let result_errors := errors r ++ ["Job failed: " +:+ e] in
      update_job_status (job_id job) "failed"
        (mkUpdate None (Some t) None None None (Some result_errors)) ;;;
      ret (mkResult 0 0 result_errors false)
  end.

Definition run_scraping_job (scraper : Scraper) (job : ScrapingJob) : Py ScrapingResult :=
  run_scraping_job_enter job ;;; run_scraping_job_resume (ret tt) scraper job.

(** ** EnhancedScraperManager: jobs *)

Definition del_active_job (jid : string) : Py unit :=
  w <- get_world ;;
  match active_jobs (manager w) !! jid with
  | None => raise (KeyError jid)
  | Some _ => modify (with_manager (fun m => set_active_jobs (delete jid (active_jobs m)) m))
  end.

Definition set_active_job (jid : string) (t : Task) : Py unit :=
  modify (with_manager (fun m => set_active_jobs (<[jid := t]> (active_jobs m)) m)).

(** Lines 294-299. *)
Definition save_fetched (saved : Z) (post : ScrapedPost) : Py Z :=
  x <- attempt (save_post post) ;;
  match x with
  | inl _ => ret (saved + 1)%Z
  | inr _ => ret saved
  end.

Definition _run_job_with_fallback_enter (job : ScrapingJob) : Py unit :=
  t <- now ;;
  update_job_status (job_id job) "running"
    (mkUpdate (Some t) None None None None None).

(** [_run_job_with_fallback] from its first suspension point on (inside
    [scrape_with_fallback]), with its [except] and [finally] clauses. *)
Definition _run_job_with_fallback_resume (resumed : Py unit) (job : ScrapingJob)
    (preferred_strategy : option ScrapingStrategy) : Py unit :=
  try_finally
    (try_except
       (resumed ;;;
        posts <- scrape_with_fallback (platform job) (target job) (max_posts job)
                   preferred_strategy ;;
        posts_saved <- for_each save_fetched posts 0%Z ;;
        t <- now ;;
        update_job_status (job_id job) "completed"
          (mkUpdate None (Some t) (Some posts_saved) None (Some true) None))
       (fun e =>
          t <- now ;;
          update_job_status (job_id job) "failed"
            (mkUpdate None (Some t) None None (Some false) (Some [exn_str e]))))
    (w <- get_world ;;
     match active_jobs (manager w) !! job_id job with
     | Some _ => del_active_job (job_id job)
     | None => ret tt
     end).

Definition _run_job_with_fallback (job : ScrapingJob)
    (preferred_strategy : option ScrapingStrategy) : Py unit :=
  _run_job_with_fallback_enter job ;;;
  _run_job_with_fallback_resume (ret tt) job preferred_strategy.

(** The first definition of [create_job] in the class (line 246), replaced at
    class creation by the definition of line 396.  [uuid4] is the identifier
    that [uuid.uuid4()] draws. *)
Definition create_job_shadowed (uuid4 : string) (p : Platform) (tgt : string)
    (n : Z) (comments : bool) (kws : option (list string))
    (strategy : option ScrapingStrategy) : Py string :=
  let job := mkJob uuid4 p tgt n comments (default [] kws) "pending" in
  save_job job ;;;
  set_active_job uuid4 (mkTask (run_job_with_fallback_coro job strategy) Scheduled) ;;;
  ret uuid4.

(** [create_job] as the class has it (line 396). *)
Definition create_job (uuid4 : string) (p : Platform) (tgt : string)
    (n : Z) (comments : bool) (kws : option (list string)) : Py string :=
  let job := mkJob uuid4 p tgt n comments (default [] kws) "pending" in
  save_job job ;;;
  ret uuid4.

(** [Platform(value)]. *)
Definition Platform_of_value (v : string) : Py Platform :=
  if decide (v = "reddit") then ret REDDIT
  else if decide (v = "twitter") then ret TWITTER
  else raise (ValueError "not a valid Platform").

(** [start_job] (line 422).  The attribute lookup [self.scrapers] of line
    444 raises [AttributeError], the manager having no such attribute; lines
    445-454, where the task would be created and put into [active_jobs], are
    never reached. *)
Definition start_job (jid : string) : Py bool :=
  w <- get_world ;;
  match active_jobs (manager w) !! jid with
  | Some _ => ret false
  | None =>
      job_data <- db_get_job_status jid ;;
      match job_data with
      | None => ret false
      | Some row =>
          p <- Platform_of_value (row_platform row) ;;
          let job := mkJob (row_job_id row) p (row_target row) (row_max_posts row)
                           (row_include_comments row) (row_keywords row) "pending" in
          raise (AttributeError "'EnhancedScraperManager' object has no attribute 'scrapers'")
      end
  end.

(** ** The event loop on one task

    A task lives in the active-job table.  [loop_enter] runs a scheduled
    body up to its first suspension point; [loop_resume] runs a suspended
    body to its end, where the task keeps what the body returned or raised. *)

Definition set_task_state (jid : string) (st : TaskState) : Py unit :=
  modify (with_manager (fun m =>
    set_active_jobs (alter (fun t => mkTask (coro t) st) jid (active_jobs m)) m)).

Definition coro_enter (c : Coroutine) : Py unit :=
  match c with
  | run_job_with_fallback_coro job _ => _run_job_with_fallback_enter job
  | run_scraping_job_coro _ job => run_scraping_job_enter job
  end.

Definition coro_resume (resumed : Py unit) (c : Coroutine) : Py unit :=
  match c with
  | run_job_with_fallback_coro job preferred =>
      _run_job_with_fallback_resume resumed job preferred
  | run_scraping_job_coro scraper job =>
      run_scraping_job_resume resumed scraper job ;;; ret tt
  end.

Definition loop_enter (jid : string) : Py unit :=
  w <- get_world ;;
  match active_jobs (manager w) !! jid with
  | Some (mkTask c Scheduled) => coro_enter c ;;; set_task_state jid Suspended
  | _ => ret tt
  end.

Definition loop_resume (jid : string) : Py unit :=
  w <- get_world ;;
  match active_jobs (manager w) !! jid with
  | Some (mkTask c Suspended) =>
      fun w0 =>
        match coro_resume (ret tt) c w0 with
        | (Raise CancelledError, w') => set_task_state jid Cancelled w'
        | (_, w') => set_task_state jid Finished w'
        end
  | _ => ret tt
  end.

(** [task.cancel()] followed by [try: await task except CancelledError: pass].
    A task cancelled before its first step never enters its body; a
    suspended one gets the [CancelledError] at its suspension point; a
    finished one is left as it is. *)
Definition cancel_and_await (jid : string) (t : Task) : Py unit :=
  match task_state t with
  | Scheduled => set_task_state jid Cancelled
  | Suspended =>
      fun w =>
        match coro_resume (raise CancelledError) (coro t) w with
        | (Raise CancelledError, w') => set_task_state jid Cancelled w'
        | (Raise e, w') => (Raise e, w')
        | (Return _, w') => set_task_state jid Finished w'
        end
  | Finished => ret tt
  | Cancelled => ret tt
  end.

Definition stop_job (jid : string) : Py bool :=
  w <- get_world ;;
  match active_jobs (manager w) !! jid with
  | None => ret false
  | Some task =>
      cancel_and_await jid task ;;;
      del_active_job jid ;;;
      t <- now ;;
      update_job_status jid "cancelled" (mkUpdate None (Some t) None None None None) ;;;
      ret true
  end.

(** [get_job_status]: the row and the [is_running] entry of the dict. *)
Definition get_job_status (jid : string) : Py (option (ScrapingJobDB * bool)) :=
  job_data <- db_get_job_status jid ;;
  match job_data with
  | None => ret None
  | Some row =>
      w <- get_world ;;
      let is_running := bool_decide (is_Some (active_jobs (manager w) !! jid)) in
      ret (Some (row, is_running))
  end.

(** ** BaseScraper._make_request under tenacity's [retry] *)

(** What one HTTP exchange comes to. *)
Inductive Exchange :=
| Response (status : Z) (body : string)
| ConnectionFailed
| TimedOut
| Crashed (msg : string).

Inductive RequestError :=
| ClientResponseError (status : Z)
| ClientConnectionError
| TimeoutError
| OtherError (msg : string).

(** The undecorated body of [_make_request]: [raise_for_status] raises
    [ClientResponseError] on a status of 400 and above. *)
Definition make_request_once (x : Exchange) : string + RequestError :=
  match x with
  | Response status body =>
      if (400 <=? status)%Z then inr (ClientResponseError status) else inl body
  | ConnectionFailed => inr ClientConnectionError
  | TimedOut => inr TimeoutError
  | Crashed msg => inr (OtherError msg)
  end.

(** [isinstance(e, aiohttp.ClientError)]: [ClientResponseError] and
    [ClientConnectionError] are subclasses of [ClientError]. *)
Definition is_ClientError (e : RequestError) : bool :=
  match e with
  | ClientResponseError _ | ClientConnectionError => true
  | TimeoutError | OtherError _ => false
  end.

(** [retry_if_exception_type((aiohttp.ClientError, asyncio.TimeoutError))]. *)
Definition retry_if_exception_type (e : RequestError) : bool :=
  is_ClientError e ||
  match e with TimeoutError => true | _ => false end.

(** [stop_after_attempt(3)]. *)
Definition stop_after_attempt (attempt_number : nat) : bool := (3 <=? attempt_number)%nat.

(** [wait_exponential(multiplier=1, min=4, max=10)], in seconds. *)
Definition wait_exponential (attempt_number : nat) : Z :=
  Z.max 4 (Z.min (1 * 2 ^ Z.of_nat (attempt_number - 1)) 10).

Inductive RetryOutcome :=
| Returned (body : string)
| Reraised (e : RequestError)
| RetryError (last : RequestError).

Record RetryRun := mkRun {
  run_outcome : RetryOutcome;
  run_attempts : nat;
  run_sleeps : list Z
}.

(** tenacity's loop; [exchanges n] is what the [n]-th call meets on the
    network.  [budget] bounds the recursion and is not reached before
    [stop_after_attempt] fires. *)
Fixpoint retrying (budget : nat) (exchanges : nat -> Exchange)
    (attempt_number : nat) (sleeps : list Z) : RetryRun :=
  match make_request_once (exchanges attempt_number) with
  | inl body => mkRun (Returned body) attempt_number sleeps
  | inr e =>
      if negb (retry_if_exception_type e) then mkRun (Reraised e) attempt_number sleeps
      else if stop_after_attempt attempt_number then mkRun (RetryError e) attempt_number sleeps
      else
        match budget with
        | O => mkRun (RetryError e) attempt_number sleeps
        | S budget' =>
            retrying budget' exchanges (S attempt_number)
                     (sleeps ++ [wait_exponential attempt_number])
        end
  end.

Definition _make_request (exchanges : nat -> Exchange) : RetryRun :=
  retrying 3 exchanges 1 [].

(** [get_available_strategies] (line 218). *)
Definition get_available_strategies (m : Manager) (p : Platform) : list ScrapingStrategy :=
  match assoc_get (strategies m) p with
  | Some reg => registry_keys reg
  | None => []
  end.

(** ** EnhancedScraperManager: start-up, convenience methods, clean-up *)

(** Item assignment on a dict: an existing key keeps its place. *)
Fixpoint assoc_set {K V} `{EqDecision K} (l : list (K * V)) (k : K) (v : V)
    : list (K * V) :=
  match l with
  | [] => [(k, v)]
  | (k', v') :: l' =>
      if decide (k' = k) then (k, v) :: l' else (k', v') :: assoc_set l' k v
  end.

Definition set_strategies (regs : list (Platform * registry)) (m : Manager) : Manager :=
  mkManager regs (active_jobs m).

(** [self.strategies[p][s] = scraper]. *)
Definition register_scraper (p : Platform) (s : ScrapingStrategy) (scraper : Scraper)
    : Py unit :=
  w <- get_world ;;
  match assoc_get (strategies (manager w)) p with
  | None => raise (KeyError (Platform_value p))
  | Some reg =>
      modify (with_manager (fun m =>
        set_strategies (assoc_set (strategies m) p (assoc_set reg s scraper)) m))
  end.

(** One [try: ... except Exception: log] block of [_init_reddit_scrapers];
    [built] is the scraper that the constructor and [__aenter__] gave, or
    [None] when one of them raised. *)
Definition try_register (p : Platform) (s : ScrapingStrategy) (built : option Scraper)
    : Py unit :=
  match built with
  | Some scraper => register_scraper p s scraper
  | None => ret tt
  end.

(** [_init_reddit_scrapers] (lines 39-69), with [settings.enable_api_scrapers]
    and the outcome of the three constructions. *)
Definition _init_reddit_scrapers (enable_api_scrapers : bool)
    (reddit_api reddit_web reddit_feed : option Scraper) : Py unit :=
  modify (with_manager (fun m => set_strategies (assoc_set (strategies m) REDDIT []) m)) ;;;
  (if enable_api_scrapers then try_register REDDIT API reddit_api else ret tt) ;;;
  try_register REDDIT WEB reddit_web ;;;
  try_register REDDIT FEED reddit_feed.

(** [scrape_reddit_subreddit] as the class has it (line 505); [sort] is not
    used. *)
Definition scrape_reddit_subreddit (uuid4 : string) (subreddit : string) (n : Z)
    (comments : bool) (sort : string) : Py string :=
  jid <- create_job uuid4 REDDIT subreddit n comments None ;;
  start_job jid ;;;
  ret jid.

(** [scrape_twitter_user] (line 523). *)
Definition scrape_twitter_user (uuid4 : string) (username : string) (n : Z)
    (comments : bool) : Py string :=
  let username := if String.prefix "@" username then username else "@" +:+ username in
  jid <- create_job uuid4 TWITTER username n comments None ;;
  start_job jid ;;;
  ret jid.

(** [search_twitter] (line 543). *)
Definition search_twitter (uuid4 : string) (query : string) (n : Z)
    (kws : option (list string)) : Py string :=
  jid <- create_job uuid4 TWITTER query n false kws ;;
  start_job jid ;;;
  ret jid.

(** The query of [cleanup_old_jobs] (lines 627-630); a comparison with a
    NULL [completed_at] selects nothing. *)
Definition is_old_job (cutoff_date : Z) (row : ScrapingJobDB) : bool :=
  match row_completed_at row with
  | Some t => (t <? cutoff_date)%Z
  | None => false
  end
  && bool_decide (row_status row ∈ ["completed"; "failed"; "cancelled"]).

(** [timedelta(days=days)]: [OverflowError] beyond 999999999 days (its
    message, which starts with the number given, is cut short here). *)
Definition timedelta_days (days : Z) : Py Z :=
  if (Z.abs days <=? 999999999)%Z then ret (days * 86400)%Z
  else raise (OverflowError "days; must have magnitude <= 999999999").

(** The clock counts seconds from 1970-01-01; a [datetime] is between
    0001-01-01 and the end of 9999-12-31. *)
Definition datetime_min : Z := -62135596800.
Definition datetime_max : Z := 253402300799.

(** [datetime - timedelta]. *)
Definition datetime_sub (t delta : Z) : Py Z :=
  let d := (t - delta)%Z in
  if (datetime_min <=? d)%Z && (d <=? datetime_max)%Z then ret d
  else raise (OverflowError "date value out of range").

(** [cleanup_old_jobs] (line 620), with the clock in seconds. *)
Definition cleanup_old_jobs (days : Z) : Py unit :=
  t <- now ;;
  delta <- timedelta_days days ;;
  cutoff_date <- datetime_sub t delta ;;
  modify (with_database (fun db =>
    mkDb (scraped_posts db)
         (filter (fun kv => is_old_job cutoff_date kv.2 = false) (scraping_jobs db)))).

(** [BaseScraper.health_check] (line 203): the probe under its retries,
    every exception turned into [False]. *)
Definition health_check (exchanges : nat → Exchange) : bool :=
  match run_outcome (_make_request exchanges) with
  | Returned _ => true
  | Reraised _ | RetryError _ => false
  end.

(** ** RedditFeedScraper.scrape_posts *)

(** [l[:n]]. *)
Definition slice_to {A} (n : Z) (l : list A) : list A :=
  if (0 <=? n)%Z then take (Z.to_nat n) l
  else take (Z.to_nat (Z.of_nat (List.length l) + n)) l.

(** The loop of lines 65-77 over the entries of the feed: [convert] is
    [_convert_rss_entry_to_post], [None] when it raises. *)
Definition feed_posts {E} (convert : E → option ScrapedPost) (n : Z)
    (entries : list E) : list ScrapedPost :=
  omap convert (slice_to n entries).

(** ** Notions used to state the properties *)

(** The try-order as the specification words it: the preferred strategy
    first when it is available, then the available strategies of the default
    order without the preferred one; otherwise the default order filtered to
    availability. *)
Definition try_order_spec (preferred : option ScrapingStrategy)
    (available : list ScrapingStrategy) : list ScrapingStrategy :=
  let by_default := filter (fun s => s ∈ available) [WEB; FEED; API] in
  match preferred with
  | Some p =>
      if bool_decide (p ∈ available)
      then p :: filter (fun s => s ≠ p) by_default
      else by_default
  | None => by_default
  end.

(** What draining the [scrape_posts] of the scraper registered for a
    strategy comes to: the posts, or the message of the exception. *)
Definition strategy_outcome (m : Manager) (p : Platform) (tgt : string) (n : Z)
    (s : ScrapingStrategy) : option (list ScrapedPost + string) :=
  reg ← assoc_get (strategies m) p ;
  scraper ← registry_get reg s ;
  let gen := scrape_posts scraper tgt n in
  Some (match failure gen with
        | Some e => inr e
        | None => inl (yielded gen)
        end).

(** A strategy that does not end the fallback: it raised, or gave no post. *)
Definition no_post (r : option (list ScrapedPost + string)) : Prop :=
  r = Some (inl []) ∨ ∃ e, r = Some (inr e).

(** The last exception among the outcomes of the strategies tried. *)
Definition carry_error (acc : option string)
    (r : option (list ScrapedPost + string)) : option string :=
  match r with Some (inr e) => Some e | _ => acc end.

Definition last_error_of (rs : list (option (list ScrapedPost + string))) : option string :=
  fold_left carry_error rs None.

(** The world once the [scrape_posts] of the strategies [tried] were called. *)
Definition logged (p : Platform) (tried : list ScrapingStrategy) (w : World) : World :=
  mkWorld (manager w) (database w) (utcnow w)
          (network w ++ (called_scrape_posts p <$> tried)).

(** The rows of [scraped_posts] with a given primary key. *)
Definition rows_with_id (pid : string) (db : Database) : list ScrapedPost :=
  filter (fun row => post_id row = pid) (scraped_posts db).

(** C8 as the specification states it: saving a second post record with
    the id of a stored one succeeds and leaves one stored record. *)
Definition save_post_is_upsert : Prop :=
  ∀ (w : World) (p p' : ScrapedPost),
    post_id p = post_id p' →
    let w1 := (save_post p w).2 in
    ∃ w2, save_post p' w1 = (Return (post_id p'), w2)
          ∧ List.length (rows_with_id (post_id p) (database w2)) = 1%nat.

(** C6 as the specification states it, for the business errors it names:
    an operation that always meets "not found" or an authentication failure
    is attempted once. *)
Definition business_errors_not_retried : Prop :=
  ∀ exchanges : nat → Exchange,
    (∀ k, ∃ body, exchanges k = Response 404 body ∨ exchanges k = Response 401 body) →
    run_attempts (_make_request exchanges) = 1%nat.

(** A computation that leaves the manager (registry, active-job table) as
    it found it. *)
Definition keeps_manager {A} (m : Py A) : Prop :=
  ∀ w, manager (m w).2 = manager w.

Definition with_keywords (job : ScrapingJob) (kws : list string) : ScrapingJob :=
  mkJob (job_id job) (platform job) (target job) (max_posts job)
        (include_comments job) kws (job_status job).

(** The row of a job after [stop_job] marked it. *)
Definition mark_cancelled (jid : string) (t : Z) (db : Database) : Database :=
  match scraping_jobs db !! jid with
  | Some r =>
      mkDb (scraped_posts db)
           (<[jid := apply_update "cancelled" (mkUpdate None (Some t) None None None None) r]>
              (scraping_jobs db))
  | None => db
  end.

(** The table [scraped_posts] after the posts of a list went, one after the
    other, through the keyword filter and an insert that fails on a stored
    id. *)
Fixpoint persisted (kws : list string) (table posts : list ScrapedPost)
    : list ScrapedPost :=
  match posts with
  | [] => table
  | post :: posts' =>
      if (bool_decide (kws = []) || _matches_keywords (post_content post) kws)
         && negb (bool_decide (post_id post ∈ post_id <$> table))
      then persisted kws (table ++ [post]) posts'
      else persisted kws table posts'
  end.

(** The counters and the world [r'], [w'] that a loop over posts or
    comments reaches from [r], [w]: rows are only appended, one for each
    post or comment counted, and nothing else of the world changes. *)
Definition accounted (r : ScrapingResult) (w : World)
    (r' : ScrapingResult) (w' : World) : Prop :=
  ∃ added,
    scraped_posts (database w') = scraped_posts (database w) ++ added
    ∧ Z.of_nat (List.length added)
      = ((posts_scraped r' - posts_scraped r)
         + (comments_scraped r' - comments_scraped r))%Z
    ∧ (posts_scraped r ≤ posts_scraped r')%Z
    ∧ (comments_scraped r ≤ comments_scraped r')%Z
    ∧ scraping_jobs (database w') = scraping_jobs (database w)
    ∧ manager w' = manager w
    ∧ utcnow w' = utcnow w
    ∧ network w' = network w
    ∧ success r' = success r.

(** The world with another table of posts. *)
Definition stored (table : list ScrapedPost) (w : World) : World :=
  mkWorld (manager w) (mkDb table (scraping_jobs (database w))) (utcnow w) (network w).

(** The outcome and world of a computation, with the database changed
    afterwards. *)
Definition on_database {A} (f : Database → Database) (x : outcome A * World)
    : outcome A * World := (x.1, with_database f x.2).

(** The world once the [scrape_search] of the strategies [tried] were
    called. *)
Definition searched (p : Platform) (tried : list ScrapingStrategy) (w : World) : World :=
  mkWorld (manager w) (database w) (utcnow w)
          (network w ++ (called_scrape_search p <$> tried)).

(** The registry that [_init_reddit_scrapers] is to leave for Reddit: the
    scrapers that could be built, API first (when enabled), then WEB, then
    FEED. *)
Definition built_registry (enable_api_scrapers : bool)
    (reddit_api reddit_web reddit_feed : option Scraper) : registry :=
  (if enable_api_scrapers then option_list (pair API <$> reddit_api) else [])
  ++ option_list (pair WEB <$> reddit_web)
  ++ option_list (pair FEED <$> reddit_feed).

(** The world once a job with a new id was saved in status pending. *)
Definition created (uuid4 : string) (p : Platform) (tgt : string) (n : Z)
    (comments : bool) (kws : option (list string)) (w : World) : World :=
  let job := mkJob uuid4 p tgt n comments (default [] kws) "pending" in
  with_database (fun db =>
    mkDb (scraped_posts db) (<[uuid4 := job_row job]> (scraping_jobs db))) w.

(** The arguments with which [cleanup_old_jobs] gets to its query: a
    [timedelta] and a cut-off date that exist. *)
Definition cutoff_in_range (days : Z) (w : World) : Prop :=
  (Z.abs days ≤ 999999999
   ∧ datetime_min ≤ utcnow w - days * 86400 ≤ datetime_max)%Z.

(** ** Sample data *)

Definition post_rust : ScrapedPost :=
  mkPost "t3_a1" REDDIT "alice" "Rust 1.80 released" "https://reddit.com/a1".

Definition post_python : ScrapedPost :=
  mkPost "t3_b2" REDDIT "bob" "Python packaging news" "https://reddit.com/b2".

Definition post_rust_refetched : ScrapedPost :=
  mkPost "t3_a1" REDDIT "alice" "Rust 1.80 released (edited)" "https://reddit.com/a1".

Definition stub (c : ScraperClass) (posts : stream ScrapedPost) : Scraper :=
  mkScraper c (fun _ _ => posts) (fun _ _ => posts) (fun _ => mkStream [] None).

Definition web_ok : Scraper := stub RedditWebScraper (mkStream [post_rust; post_python] None).
Definition web_empty : Scraper := stub RedditWebScraper (mkStream [] None).
Definition web_down : Scraper := stub RedditWebScraper (mkStream [post_rust] (Some "HTTP 429")).
Definition feed_ok : Scraper := stub RedditFeedScraper (mkStream [post_python] None).

Definition empty_db : Database := mkDb [] ∅.

Definition world_of (regs : list (Platform * registry)) : World :=
  mkWorld (mkManager regs ∅) empty_db 1000 [].

(** WEB gives nothing and FEED gives a post; no adapter at all; WEB raises
    and API gives nothing. *)
Definition world_web_empty : World :=
  world_of [(REDDIT, [(WEB, web_empty); (FEED, feed_ok)])].

Definition world_no_adapter : World := world_of [(REDDIT, [])].

Definition world_all_fail : World :=
  world_of [(REDDIT, [(API, stub RedditScraper (mkStream [] None)); (WEB, web_down)])].

(** The world a computation ends in, and what it returns or raises. *)
Definition exec {A} (m : Py A) (w : World) : World := (m w).2.
Definition result {A} (m : Py A) (w : World) : outcome A := (m w).1.

(** Networks: two timeouts and then an answer; a page that is never found;
    a fetch whose [await response.text()] always meets bytes that are not
    text ([UnicodeDecodeError], neither a [ClientError] nor a
    [TimeoutError]). *)
Definition flaky_network (k : nat) : Exchange :=
  if (k <? 3)%nat then TimedOut else Response 200 "ok".

Definition not_found_network (k : nat) : Exchange := Response 404 "Not Found".

Definition garbled_network (k : nat) : Exchange := Crashed "UnicodeDecodeError".

(** One manager with a WEB scraper that gives [post_rust] and
    [post_python]. *)
Definition world_reddit : World :=
  world_of [(REDDIT, [(WEB, web_ok)])].

(** Only the feed scraper is registered. *)
Definition world_feed_only : World :=
  world_of [(REDDIT, [(FEED, feed_ok)])].

Definition world_web_feed : World :=
  world_of [(REDDIT, [(WEB, web_ok); (FEED, feed_ok)])].

(** A job with the keyword "rust", and the world once it is saved. *)
Definition keyword_job : ScrapingJob :=
  mkJob "job-2" REDDIT "rust" 10 false ["rust"] "pending".

Definition world_keyword_job : World :=
  exec (create_job "job-2" REDDIT "rust" 10 false (Some ["rust"])) world_reddit.

(** The columns of a job row that the claims are about. *)
Definition job_summary (w : World) (jid : string)
    : option (string * Z * option Z * bool) :=
  row ← scraping_jobs (database w) !! jid ;
  Some (row_status row, row_posts_scraped row, row_completed_at row, row_success row).

Definition task_state_of (w : World) (jid : string) : option TaskState :=
  task_state <$> active_jobs (manager w) !! jid.

Definition is_running (w : World) (jid : string) : option bool :=
  match result (get_job_status jid) w with
  | Return (Some (_, running)) => Some running
  | _ => None
  end.

(** A job as [create_job] builds it, and the world once it is saved. *)
Definition sample_job : ScrapingJob :=
  mkJob "job-1" REDDIT "rust" 10 false [] "pending".

Definition world_job_created : World :=
  exec (create_job "job-1" REDDIT "rust" 10 false None) world_reddit.

(** Only the API scraper is registered. *)
Definition world_api_only : World :=
  world_of [(REDDIT, [(API, stub RedditScraper (mkStream [post_rust] None))])].

(** A feed whose entries are titles; the entry "bad" cannot be converted. *)
Definition convert_entry (title : string) : option ScrapedPost :=
  if decide (title = "bad") then None
  else Some (mkPost title REDDIT "unknown" title "https://reddit.com").

(** ** The states a manager gets into

    What happens to a manager and its database: a call of a method of the
    class, one of the two job bodies run as a coroutine, a step of the event
    loop on the task of a job, the clock going on.  The methods of the class
    that are not listed only read: [get_available_strategies],
    [get_strategy_info], [list_active_jobs], [get_scraped_posts], the
    manager's [health_check] (which raises at [self.scrapers]), and
    [__aexit__], which closes the scrapers and cancels the tasks it finds in
    [active_jobs] without assigning to the table. *)
Inductive Call :=
| call_init_reddit_scrapers (enable_api_scrapers : bool)
    (reddit_api reddit_web reddit_feed : option Scraper)
| call_scrape_with_fallback (p : Platform) (tgt : string) (n : Z)
    (preferred_strategy : option ScrapingStrategy)
| call_scrape_search_with_fallback (p : Platform) (q : string) (n : Z)
    (preferred_strategy : option ScrapingStrategy)
| call_create_job (uuid4 : string) (p : Platform) (tgt : string) (n : Z)
    (comments : bool) (kws : option (list string))
| call_start_job (jid : string)
| call_stop_job (jid : string)
| call_get_job_status (jid : string)
| call_scrape_reddit_subreddit (uuid4 subreddit : string) (n : Z) (comments : bool)
    (sort : string)
| call_scrape_twitter_user (uuid4 username : string) (n : Z) (comments : bool)
| call_search_twitter (uuid4 query : string) (n : Z) (kws : option (list string))
| call_cleanup_old_jobs (days : Z)
| call_run_scraping_job (scraper : Scraper) (job : ScrapingJob)
| call_run_job_with_fallback (job : ScrapingJob)
    (preferred_strategy : option ScrapingStrategy)
| event_loop_enters (jid : string)
| event_loop_resumes (jid : string)
| clock_shows (t : Z).

Definition after (c : Call) (w : World) : World :=
  match c with
  | call_init_reddit_scrapers e api web feed => exec (_init_reddit_scrapers e api web feed) w
  | call_scrape_with_fallback p tgt n pref => exec (scrape_with_fallback p tgt n pref) w
  | call_scrape_search_with_fallback p q n pref =>
      exec (scrape_search_with_fallback p q n pref) w
  | call_create_job uuid4 p tgt n comments kws => exec (create_job uuid4 p tgt n comments kws) w
  | call_start_job jid => exec (start_job jid) w
  | call_stop_job jid => exec (stop_job jid) w
  | call_get_job_status jid => exec (get_job_status jid) w
  | call_scrape_reddit_subreddit uuid4 subreddit n comments sort =>
      exec (scrape_reddit_subreddit uuid4 subreddit n comments sort) w
  | call_scrape_twitter_user uuid4 username n comments =>
      exec (scrape_twitter_user uuid4 username n comments) w
  | call_search_twitter uuid4 query n kws => exec (search_twitter uuid4 query n kws) w
  | call_cleanup_old_jobs days => exec (cleanup_old_jobs days) w
  | call_run_scraping_job scraper job => exec (run_scraping_job scraper job) w
  | call_run_job_with_fallback job pref => exec (_run_job_with_fallback job pref) w
  | event_loop_enters jid => exec (loop_enter jid) w
  | event_loop_resumes jid => exec (loop_resume jid) w
  | clock_shows t => mkWorld (manager w) (database w) t (network w)
  end.

(** [EnhancedScraperManager()]: what [__init__] leaves, next to a database
    and a clock that are as they are. *)
Definition new_manager (db : Database) (t : Z) : World :=
  mkWorld (mkManager [] ∅) db t [].

(** The world after a sequence of calls and steps. *)
Definition history (cs : list Call) (w : World) : World :=
  fold_left (fun w c => after c w) cs w.

(** The task of a job is executing: it was created and is not done. *)
Definition executing (w : World) (jid : string) : bool :=
  match active_jobs (manager w) !! jid with
  | Some t => negb (task_done t)
  | None => false
  end.

(** A manager is made and started, a job is created, started and stopped. *)
Definition sample_calls : list Call :=
  [call_init_reddit_scrapers false None (Some web_ok) None;
   call_create_job "job-1" REDDIT "rust" 10 false None;
   call_start_job "job-1";
   call_stop_job "job-1"].

(** The first [k - 1] calls of a fetch each met an exception that is
    retried. *)
Definition retried_before (exchanges : nat → Exchange) (k : nat) : Prop :=
  ∀ j, (1 ≤ j < k)%nat →
    ∃ e, make_request_once (exchanges j) = inr e ∧ retry_if_exception_type e = true.

(** The posts among [posts] that go into the table [table]: those that pass
    the keyword filter and whose id is not yet stored, in the order they
    came. *)
Fixpoint kept (kws : list string) (table posts : list ScrapedPost)
    : list ScrapedPost :=
  match posts with
  | [] => []
  | post :: posts' =>
      if (bool_decide (kws = []) || _matches_keywords (post_content post) kws)
         && negb (bool_decide (post_id post ∈ post_id <$> table))
      then post :: kept kws (table ++ [post]) posts'
      else kept kws table posts'
  end.

(** C7 as the specification states it, for a job without comments that
    [run_scraping_job] executes on an empty table of posts: a fetched post is
    persisted exactly when it matches, and the recorded [posts_scraped] is
    the number of posts persisted. *)
Definition keyword_filter_claim : Prop :=
  ∀ (scraper : Scraper) (job : ScrapingJob) (w : World),
    keywords job ≠ [] →
    include_comments job = false →
    is_Some (scraping_jobs (database w) !! job_id job) →
    scraped_posts (database w) = [] →
    let fetched := yielded (scrape_posts scraper (target job) (max_posts job)) in
    let w' := exec (run_scraping_job scraper job) w in
    (∀ post, post ∈ fetched →
       post ∈ scraped_posts (database w')
       ↔ _matches_keywords (post_content post) (keywords job) = true)
    ∧ ∃ row, scraping_jobs (database w') !! job_id job = Some row
             ∧ row_posts_scraped row
               = Z.of_nat (List.length (scraped_posts (database w'))).

(** A scraper that fetches the same post twice, as a listing does when a
    post moves from one page to the next between two requests. *)
Definition web_repeats : Scraper :=
  stub RedditWebScraper (mkStream [post_rust; post_rust] None).

(** * Properties *)

(** ** The try-order *)

Lemma strategies_to_try_eq preferred available :
  strategies_to_try preferred available = try_order_spec preferred available.
Proof.
  unfold strategies_to_try, try_order_spec.
  destruct preferred as [p|]; [case_bool_decide|]; cbn [fold_left];
    rewrite ?filter_cons, ?filter_nil;
    repeat (case_bool_decide; cbn [andb app]);
    repeat case_decide; cbn [filter]; rewrite ?filter_cons, ?filter_nil;
    repeat case_decide; try reflexivity; try contradiction; try congruence.
Qed.

Lemma try_order_available preferred available s :
  s ∈ strategies_to_try preferred available → s ∈ available.
Proof.
  rewrite strategies_to_try_eq. unfold try_order_spec.
  destruct preferred as [p|]; [case_bool_decide|].
  - rewrite elem_of_cons, !list_elem_of_filter. intros [->|(_ & H' & _)]; done.
  - rewrite list_elem_of_filter. by intros [H' _].
  - rewrite list_elem_of_filter. by intros [H' _].
Qed.

(** C2: the order in which [scrape_with_fallback] tries the strategies is
    the one the specification describes: the preferred strategy first when
    it is available, followed by the available strategies of the default
    order WEB, FEED, API other than the preferred one; with no preferred
    strategy, or an unavailable one, the default order filtered to
    availability. *)
Theorem try_order_as_specified
    (preferred : option ScrapingStrategy) (available : list ScrapingStrategy) :
  strategies_to_try preferred available = try_order_spec preferred available
  ∧ try_order_spec None available
      = filter (fun s => s ∈ available) [WEB; FEED; API]
  ∧ ∀ p, preferred = Some p →
      (p ∈ available →
         strategies_to_try preferred available
           = p :: filter (fun s => s ≠ p) (filter (fun s => s ∈ available) [WEB; FEED; API]))
      ∧ (p ∉ available →
         strategies_to_try preferred available
           = filter (fun s => s ∈ available) [WEB; FEED; API]).
Proof.
  split; [apply strategies_to_try_eq|]. split; [done|].
  intros p ->. rewrite strategies_to_try_eq. unfold try_order_spec.
  split; intros Hp; case_bool_decide; done.
Qed.

(** The example of the specification: API preferred but unavailable, WEB and
    FEED available. *)
Lemma try_order_as_specified_witness :
  strategies_to_try (Some API) [WEB; FEED] = [WEB; FEED]
  ∧ strategies_to_try (Some FEED) [API; WEB; FEED] = [FEED; WEB; API].
Proof.
  split.
  - destruct (try_order_as_specified (Some API) [WEB; FEED]) as (_ & _ & H).
    destruct (H API eq_refl) as [_ H']. rewrite H'; [reflexivity|].
    exact (bool_decide_unpack (API ∉ [WEB; FEED]) I).
  - destruct (try_order_as_specified (Some FEED) [API; WEB; FEED]) as (_ & _ & H).
    destruct (H FEED eq_refl) as [H' _]. rewrite H'; [reflexivity|].
    exact (bool_decide_unpack (FEED ∈ [API; WEB; FEED]) I).
Defined.

(** ** scrape_with_fallback *)

Lemma registry_get_keys (reg : registry) s :
  s ∈ registry_keys reg → is_Some (registry_get reg s).
Proof.
  unfold registry_keys. induction reg as [|[k v] reg IH]; cbn.
  - intros H. by apply elem_of_nil in H.
  - intros H. case_decide; [eauto|].
    apply elem_of_cons in H as [->|H]; [done|auto].
Qed.

Lemma attempt_strategy_run p tgt n s w r :
  strategy_outcome (manager w) p tgt n s = Some r →
  attempt_strategy p tgt n s w = (Return r, logged p [s] w).
Proof.
  unfold strategy_outcome, attempt_strategy, try_except, get_scraper, bind, get_world.
  destruct (assoc_get _ p) as [reg|]; cbn; [|done].
  destruct (registry_get reg s) as [scraper|]; cbn; [|done].
  unfold drain, bind, modify, ret, raise.
  destruct (failure _); cbn; intros [= <-]; done.
Qed.

Lemma logged_nil p w : logged p [] w = w.
Proof. destruct w. unfold logged. cbn. by rewrite app_nil_r. Qed.

Lemma logged_app p l1 l2 w : logged p l2 (logged p l1 w) = logged p (l1 ++ l2) w.
Proof. unfold logged. cbn. by rewrite fmap_app, app_assoc. Qed.

(** The loop of lines 137-158, from any point of the try-order on. *)
Lemma fallback_loop_run p tgt n todo : ∀ last w,
  Forall (fun s => is_Some (strategy_outcome (manager w) p tgt n s)) todo →
  match fallback_loop p tgt n todo last w with
  | (Return posts, w') =>
      posts ≠ [] ∧
      ∃ pre s post, todo = pre ++ s :: post ∧
        Forall (fun s' => no_post (strategy_outcome (manager w) p tgt n s')) pre ∧
        strategy_outcome (manager w) p tgt n s = Some (inl posts) ∧
        w' = logged p (pre ++ [s]) w
  | (Raise e, w') =>
      e = AllStrategiesFailed "scraping" p
            (fold_left carry_error (strategy_outcome (manager w) p tgt n <$> todo) last) ∧
      Forall (fun s' => no_post (strategy_outcome (manager w) p tgt n s')) todo ∧
      w' = logged p todo w
  end.
Proof.
  induction todo as [|s rest IH]; intros last w Hreg.
  - cbn. by rewrite logged_nil.
  - apply Forall_cons in Hreg as [[r Hr] Hrest].
    cbn [fallback_loop]. unfold bind at 1.
    rewrite (attempt_strategy_run _ _ _ _ _ _ Hr).
    assert (Hm : manager (logged p [s] w) = manager w) by done.
    destruct r as [[|post posts]|e].
    + specialize (IH last (logged p [s] w)). rewrite Hm in IH.
      specialize (IH Hrest).
      destruct (fallback_loop p tgt n rest last (logged p [s] w)) as [[ps|e] w'].
      * destruct IH as (Hne & pre & s0 & post & -> & Hpre & Hs0 & ->).
        split; [done|]. exists (s :: pre), s0, post.
        repeat split; [|done|by rewrite logged_app].
        apply Forall_cons. split; [by left|done].
      * destruct IH as (-> & Hall & ->). cbn. rewrite Hr. cbn.
        repeat split; [|by rewrite logged_app].
        apply Forall_cons. split; [by left|done].
    + cbn. split; [done|]. exists [], s, rest. repeat split; [constructor|done].
    + specialize (IH (Some e) (logged p [s] w)). rewrite Hm in IH.
      specialize (IH Hrest).
      destruct (fallback_loop p tgt n rest (Some e) (logged p [s] w)) as [[ps|e'] w'].
      * destruct IH as (Hne & pre & s0 & post & -> & Hpre & Hs0 & ->).
        split; [done|]. exists (s :: pre), s0, post.
        repeat split; [|done|by rewrite logged_app].
        apply Forall_cons. split; [right; eauto|done].
      * destruct IH as (-> & Hall & ->). cbn. rewrite Hr. cbn.
        repeat split; [|by rewrite logged_app].
        apply Forall_cons. split; [right; eauto|done].
Qed.

Lemma try_order_registered (m : Manager) p tgt n preferred reg :
  assoc_get (strategies m) p = Some reg →
  Forall (fun s => is_Some (strategy_outcome m p tgt n s))
         (strategies_to_try preferred (registry_keys reg)).
Proof.
  intros Hreg. apply Forall_forall. intros s Hs.
  apply try_order_available, registry_get_keys in Hs as [scraper Hs].
  unfold strategy_outcome. rewrite Hreg. cbn. rewrite Hs. cbn. eauto.
Qed.

(** What a call of [scrape_with_fallback] comes to, in full: the outcome
    and the world it leaves. *)
Lemma scrape_with_fallback_run p tgt n preferred w :
  let m := manager w in
  let todo := strategies_to_try preferred (get_available_strategies m p) in
  match scrape_with_fallback p tgt n preferred w with
  | (Return posts, w') =>
      posts ≠ [] ∧
      ∃ pre s post, todo = pre ++ s :: post ∧
        Forall (fun s' => no_post (strategy_outcome m p tgt n s')) pre ∧
        strategy_outcome m p tgt n s = Some (inl posts) ∧
        w' = logged p (pre ++ [s]) w
  | (Raise (ValueError _), w') => todo = [] ∧ w' = w
  | (Raise (AllStrategiesFailed what p' last), w') =>
      what = "scraping" ∧ p' = p ∧ todo ≠ [] ∧
      Forall (fun s' => no_post (strategy_outcome m p tgt n s')) todo ∧
      last = last_error_of (strategy_outcome m p tgt n <$> todo) ∧
      w' = logged p todo w
  | (Raise _, _) => False
  end.
Proof.
  cbn zeta. unfold scrape_with_fallback, get_available_strategies, bind, get_world.
  destruct (assoc_get (strategies (manager w)) p) as [reg|] eqn:Hreg;
    cbn -[fallback_loop].
  2:{ split; [|done]. by destruct preferred. }
  destruct (registry_keys reg) as [|k ks] eqn:Hkeys.
  { cbn. split; [|done]. by destruct preferred. }
  rewrite <- Hkeys.
  pose proof (try_order_registered (manager w) p tgt n preferred reg Hreg) as Hall.
  destruct (strategies_to_try preferred (registry_keys reg)) as [|s0 todo] eqn:Htodo.
  { by cbn. }
  pose proof (fallback_loop_run p tgt n (s0 :: todo) None w Hall) as Hrun.
  destruct (fallback_loop p tgt n (s0 :: todo) None w) as [[posts|e] w'].
  - done.
  - destruct Hrun as (-> & Hnone & ->). done.
Qed.

Lemma first_success_unique {A} (P : A → Prop) pre s post pre' s' post' :
  pre ++ s :: post = pre' ++ s' :: post' →
  Forall P pre → ¬ P s → Forall P pre' → ¬ P s' →
  pre = pre' ∧ s = s'.
Proof.
  revert pre'. induction pre as [|a pre IH]; intros [|a' pre'] Heq Hpre Hs Hpre' Hs';
    cbn in Heq; injection Heq as -> Heq.
  - done.
  - apply Forall_cons in Hpre' as [Ha _]. done.
  - apply Forall_cons in Hpre as [Ha _]. done.
  - apply Forall_cons in Hpre as [_ Hpre]. apply Forall_cons in Hpre' as [_ Hpre'].
    destruct (IH pre' Heq Hpre Hs Hpre' Hs') as [-> ->]. done.
Qed.

Lemma produced_not_no_post (posts : list ScrapedPost) :
  posts ≠ [] → ¬ no_post (Some (inl posts)).
Proof. intros Hne [[= ->]|[e [=]]]. done. Qed.

(** C1: [scrape_with_fallback] returns a non-empty list of posts or raises.
    It never returns an empty list.  With no adapter available for the
    platform it raises the [ValueError] that the specification calls
    NoAdaptersAvailable.  Otherwise it calls [scrape_posts] of the
    strategies in try-order, goes on past a strategy that raised or gave no
    post, and returns the posts of the first strategy that gave at least
    one; when every strategy of the try-order raised or gave nothing it
    raises the exception that the specification calls AllStrategiesFailed,
    with the last exception that a strategy raised. *)
Theorem scrape_with_fallback_posts_or_raises
    (p : Platform) (tgt : string) (n : Z)
    (preferred : option ScrapingStrategy) (w : World) :
  let m := manager w in
  let todo := strategies_to_try preferred (get_available_strategies m p) in
  let run := result (scrape_with_fallback p tgt n preferred) w in
  let calls := network (exec (scrape_with_fallback p tgt n preferred) w) in
  run ≠ Return []
  ∧ (get_available_strategies m p = [] → ∃ msg, run = Raise (ValueError msg))
  ∧ (∀ pre s post posts,
       todo = pre ++ s :: post →
       Forall (fun s' => no_post (strategy_outcome m p tgt n s')) pre →
       strategy_outcome m p tgt n s = Some (inl posts) → posts ≠ [] →
       run = Return posts
       ∧ calls = network w ++ (called_scrape_posts p <$> pre ++ [s]))
  ∧ (todo ≠ [] →
     Forall (fun s' => no_post (strategy_outcome m p tgt n s')) todo →
     run = Raise (AllStrategiesFailed "scraping" p
                    (last_error_of (strategy_outcome m p tgt n <$> todo)))
     ∧ calls = network w ++ (called_scrape_posts p <$> todo))
  ∧ match run with
    | Return posts =>
        ∃ pre s post, todo = pre ++ s :: post ∧
          Forall (fun s' => no_post (strategy_outcome m p tgt n s')) pre ∧
          strategy_outcome m p tgt n s = Some (inl posts)
    | Raise (ValueError _) => todo = []
    | Raise (AllStrategiesFailed _ _ _) =>
        todo ≠ [] ∧ Forall (fun s' => no_post (strategy_outcome m p tgt n s')) todo
    | Raise _ => False
    end.
Proof.
  cbn zeta. unfold result, exec.
  pose proof (scrape_with_fallback_run p tgt n preferred w) as Hrun. cbn zeta in Hrun.
  destruct (scrape_with_fallback p tgt n preferred w) as [[posts|e] w']; cbn [fst snd].
  - destruct Hrun as (Hne & pre & s & post & Htodo & Hpre & Hs & ->).
    split; [congruence|]. split.
    { intros Hnil. rewrite Hnil in Htodo.
      destruct preferred, pre; discriminate Htodo. }
    split; [|split].
    + intros pre' s' post' posts' Htodo' Hpre' Hs' Hne'.
      rewrite Htodo in Htodo'.
      destruct (first_success_unique _ _ _ _ _ _ _ Htodo' Hpre) as [<- <-]; try done.
      * rewrite Hs. by apply produced_not_no_post.
      * rewrite Hs'. by apply produced_not_no_post.
      * rewrite Hs in Hs'. by injection Hs' as ->.
    + intros _ Hall. exfalso. rewrite Htodo in Hall.
      apply Forall_app in Hall as [_ Hall]. apply Forall_cons in Hall as [Hbad _].
      rewrite Hs in Hbad. by apply produced_not_no_post in Hbad.
    + by exists pre, s, post.
  - destruct e as [msg| | | | | |what p' last|]; try done.
    + destruct Hrun as [Htodo ->]. split; [done|]. split; [eauto|].
      split; [|split; [|done]].
      * intros pre s post posts Htodo'. rewrite Htodo in Htodo'. by destruct pre.
      * done.
    + destruct Hrun as (-> & -> & Hne & Hall & -> & ->). split; [done|]. split.
      { intros Hnil. rewrite Hnil in Hne. by destruct preferred. }
      split; [|split; [|done]].
      * intros pre s post posts Htodo _ Hs Hposts. exfalso. rewrite Htodo in Hall.
        apply Forall_app in Hall as [_ Hall]. apply Forall_cons in Hall as [Hbad _].
        rewrite Hs in Hbad. by apply produced_not_no_post in Hbad.
      * done.
Qed.

Lemma scrape_with_fallback_posts_or_raises_witness :
  result (scrape_with_fallback REDDIT "rust" 10 None) world_web_empty
    = Return [post_python]
  ∧ (∃ msg, result (scrape_with_fallback REDDIT "rust" 10 None) world_no_adapter
              = Raise (ValueError msg))
  ∧ result (scrape_with_fallback REDDIT "rust" 10 (Some API)) world_all_fail
    = Raise (AllStrategiesFailed "scraping" REDDIT (Some "HTTP 429")).
Proof.
  split; [|split].
  - destruct (scrape_with_fallback_posts_or_raises REDDIT "rust" 10 None world_web_empty)
      as (_ & _ & H & _).
    apply (H [WEB] FEED [] [post_python]).
    + reflexivity.
    + apply Forall_cons. split; [left; reflexivity|apply Forall_nil_2].
    + reflexivity.
    + discriminate.
  - destruct (scrape_with_fallback_posts_or_raises REDDIT "rust" 10 None world_no_adapter)
      as (_ & H & _).
    apply H. reflexivity.
  - destruct (scrape_with_fallback_posts_or_raises REDDIT "rust" 10 (Some API) world_all_fail)
      as (_ & _ & _ & H & _).
    apply H.
    + discriminate.
    + apply Forall_cons. split; [left; reflexivity|].
      apply Forall_cons. split; [right; eexists; reflexivity|apply Forall_nil_2].
Defined.

(** C10: a call of [scrape_with_fallback], whether it returns posts or
    raises, leaves the strategy registry and the active-job table of the
    manager as they were (and the database too); all it adds to the world
    are the calls it made to the scrapers. *)
Theorem scrape_with_fallback_frame
    (p : Platform) (tgt : string) (n : Z)
    (preferred : option ScrapingStrategy) (w : World) :
  let w' := exec (scrape_with_fallback p tgt n preferred) w in
  strategies (manager w') = strategies (manager w)
  ∧ active_jobs (manager w') = active_jobs (manager w)
  ∧ manager w' = manager w
  ∧ database w' = database w.
Proof.
  cbn zeta. unfold exec.
  pose proof (scrape_with_fallback_run p tgt n preferred w) as Hrun. cbn zeta in Hrun.
  destruct (scrape_with_fallback p tgt n preferred w) as [[posts|e] w']; cbn [snd].
  - destruct Hrun as (_ & pre & s & post & _ & _ & _ & ->). done.
  - destruct e as [msg| | | | | |what p' last|]; try done.
    + by destruct Hrun as [_ ->].
    + by destruct Hrun as (_ & _ & _ & _ & _ & ->).
Qed.

(** ** Jobs *)

Lemma create_job_frame uuid4 p tgt n c kws w :
  manager (exec (create_job uuid4 p tgt n c kws) w) = manager w.
Proof.
  unfold exec, create_job, save_job, bind, get_world.
  cbn. by destruct (scraping_jobs (database w) !! uuid4).
Qed.

(** C3: the code departs from the claim.  The [create_job] that the class
    ends up with (line 396) saves the job in status pending and returns its
    id, but starts no task and leaves the active-job table as it was: after
    the call the job is not running.  The definition of line 246, which it
    replaces, does register a scheduled task. *)
Theorem create_job_starts_no_task :
  let call := create_job "job-1" REDDIT "rust" 10 false None in
  let first_definition := create_job_shadowed "job-1" REDDIT "rust" 10 false None None in
  result call world_reddit = Return "job-1"
  ∧ job_summary (exec call world_reddit) "job-1" = Some ("pending", 0%Z, None, false)
  ∧ manager (exec call world_reddit) = manager world_reddit
  ∧ task_state_of (exec call world_reddit) "job-1" = None
  ∧ is_running (exec call world_reddit) "job-1" = Some false
  ∧ task_state_of (exec first_definition world_reddit) "job-1" = Some Scheduled
  ∧ is_running (exec first_definition world_reddit) "job-1" = Some true.
Proof.
  cbn zeta. split; [reflexivity|]. split; [reflexivity|].
  split; [apply create_job_frame|]. repeat split; reflexivity.
Qed.

(** [stop_job] on an id that is not in the active-job table returns false
    and changes nothing. *)
Lemma stop_job_inactive jid w :
  active_jobs (manager w) !! jid = None →
  stop_job jid w = (Return false, w).
Proof. intros H. unfold stop_job, bind, get_world. cbn. by rewrite H. Qed.

(** ** save_post *)

Lemma rows_with_id_absent pid (rows : list ScrapedPost) :
  pid ∉ post_id <$> rows → filter (fun row => post_id row = pid) rows = [].
Proof.
  induction rows as [|r rows IH]; [done|]. cbn. intros Hnin.
  apply not_elem_of_cons in Hnin as [Hne Hnin].
  case_decide; [congruence|auto].
Qed.

Lemma save_post_fresh p w :
  has_post (post_id p) (database w) = false →
  save_post p w
  = (Return (post_id p),
     with_database (fun db => mkDb (scraped_posts db ++ [p]) (scraping_jobs db)) w).
Proof. intros H. unfold save_post, bind, get_world. cbn. by rewrite H. Qed.

Lemma save_post_stored p w :
  has_post (post_id p) (database w) = true →
  save_post p w = (Raise (IntegrityError (post_id p)), w).
Proof. intros H. unfold save_post, bind, get_world. cbn. by rewrite H. Qed.

(** No two rows of [scraped_posts] ever share an id. *)
Lemma save_post_keeps_ids_distinct p w :
  NoDup (post_id <$> scraped_posts (database w)) →
  NoDup (post_id <$> scraped_posts (database (exec (save_post p) w))).
Proof.
  intros Hnd. unfold exec.
  destruct (has_post (post_id p) (database w)) eqn:Hp.
  - by rewrite save_post_stored.
  - rewrite save_post_fresh by done. cbn. rewrite fmap_app. cbn.
    apply NoDup_app. split; [done|]. split; [|apply NoDup_singleton].
    intros x Hx Hx'. apply list_elem_of_singleton in Hx' as ->.
    unfold has_post in Hp. by apply bool_decide_eq_false in Hp.
Qed.

(** C8, the claim as stated fails: the second save of an id raises. *)
Lemma save_post_not_upsert : ¬ save_post_is_upsert.
Proof.
  intros Hclaim.
  destruct (Hclaim world_reddit post_rust post_rust_refetched eq_refl) as (w2 & Hsave & _).
  vm_compute in Hsave. discriminate Hsave.
Qed.

(** C8, amended: of two post records with the same id, saved one after
    the other into a table that has no row with this id, the first is
    stored; the second save raises an integrity error and changes nothing,
    so that the table holds exactly one row with this id: the first record. *)
Theorem save_post_first_record_wins (w : World) (p p' : ScrapedPost) :
  post_id p = post_id p' →
  has_post (post_id p) (database w) = false →
  let w1 := exec (save_post p) w in
  result (save_post p) w = Return (post_id p)
  ∧ save_post p' w1 = (Raise (IntegrityError (post_id p)), w1)
  ∧ rows_with_id (post_id p) (database w1) = [p].
Proof.
  intros Hid Hfresh. cbn zeta. unfold exec, result.
  rewrite (save_post_fresh p w Hfresh). cbn [fst snd].
  split; [done|]. split.
  - rewrite save_post_stored; [by rewrite Hid|].
    rewrite <- Hid. unfold has_post. apply bool_decide_eq_true. cbn.
    rewrite fmap_app. apply elem_of_app. right. by apply list_elem_of_singleton.
  - unfold rows_with_id. cbn. rewrite filter_app.
    rewrite rows_with_id_absent.
    + cbn. by case_decide.
    + unfold has_post in Hfresh. by apply bool_decide_eq_false in Hfresh.
Qed.

Lemma save_post_first_record_wins_witness :
  save_post post_rust_refetched (exec (save_post post_rust) world_reddit)
    = (Raise (IntegrityError "t3_a1"), exec (save_post post_rust) world_reddit)
  ∧ rows_with_id "t3_a1" (database (exec (save_post post_rust) world_reddit))
    = [post_rust].
Proof.
  destruct (save_post_first_record_wins world_reddit post_rust post_rust_refetched)
    as (_ & H1 & H2); [reflexivity|reflexivity|].
  split; [exact H1|exact H2].
Defined.

(** ** scrape_search_with_fallback *)

Lemma search_capable_fold (reg : registry) (keys acc : list ScrapingStrategy) s :
  s ∈ fold_left
        (fun acc strategy =>
           match registry_get reg strategy with
           | Some scraper => if has_scrape_search scraper then acc ++ [strategy] else acc
           | None => acc
           end) keys acc
  ↔ s ∈ acc ∨ (s ∈ keys ∧ ∃ scraper, registry_get reg s = Some scraper
                                     ∧ has_scrape_search scraper = true).
Proof.
  revert acc. induction keys as [|k keys IH]; intros acc; cbn.
  - split; [by left|]. intros [H|[H _]]; [done|]. by apply elem_of_nil in H.
  - rewrite IH. destruct (registry_get reg k) as [sc|] eqn:Hk.
    + destruct (has_scrape_search sc) eqn:Hsc.
      * rewrite elem_of_app, list_elem_of_singleton, elem_of_cons. split.
        -- intros [[H| ->]|H]; [by left| |]; right; [split; [by left|eauto]|].
           destruct H as [H1 H2]. split; [by right|done].
        -- intros [H|[[->|H1] H2]]; [by left; left|by left; right|by right].
      * rewrite elem_of_cons. split.
        -- intros [H|[H1 H2]]; [by left|]. right. split; [by right|done].
        -- intros [H|[[->|H1] H2]]; [by left| |by right].
           destruct H2 as (sc' & Hsc' & Htrue). congruence.
    + rewrite elem_of_cons. split.
      * intros [H|[H1 H2]]; [by left|]. right. split; [by right|done].
      * intros [H|[[->|H1] H2]]; [by left| |by right].
        destruct H2 as (sc' & Hsc' & _). congruence.
Qed.

(** The candidates of a search are the registered strategies whose scraper
    object has an attribute [scrape_search]. *)
Lemma search_capable_iff (reg : registry) s :
  s ∈ search_capable_strategies reg
  ↔ s ∈ registry_keys reg
    ∧ ∃ scraper, registry_get reg s = Some scraper ∧ has_scrape_search scraper = true.
Proof.
  unfold search_capable_strategies. rewrite search_capable_fold. split.
  - intros [H|H]; [by apply elem_of_nil in H|done].
  - by right.
Qed.

(** C9: the code departs from the claim.  [RedditFeedScraper] has a method
    [scrape_search], so the [hasattr] filter keeps FEED: with the feed
    scraper alone the search does not raise the [ValueError] for a platform
    without a search-capable scraper, it calls the feed scraper and then
    fails as a search whose strategies all failed; and a search that prefers
    FEED goes to the feed scraper first. *)
Theorem feed_scraper_selected_for_search :
  cls feed_ok = RedditFeedScraper
  ∧ has_scrape_search feed_ok = true
  ∧ search_capable_strategies [(FEED, feed_ok)] = [FEED]
  ∧ result (scrape_search_with_fallback REDDIT "rust" 10 None) world_feed_only
      = Raise (AllStrategiesFailed "search" REDDIT None)
  ∧ network (exec (scrape_search_with_fallback REDDIT "rust" 10 None) world_feed_only)
      = [called_scrape_search REDDIT FEED]
  ∧ network (exec (scrape_search_with_fallback REDDIT "rust" 10 (Some FEED)) world_web_feed)
      = [called_scrape_search REDDIT FEED; called_scrape_search REDDIT WEB].
Proof. repeat split; reflexivity. Qed.

(** ** _make_request *)

Lemma error_status_is_retried status body :
  (400 ≤ status)%Z →
  make_request_once (Response status body) = inr (ClientResponseError status)
  ∧ retry_if_exception_type (ClientResponseError status) = true.
Proof.
  intros H. unfold make_request_once.
  by rewrite (proj2 (Z.leb_le 400 status) H).
Qed.

(** C6, the claim as stated fails: a request that always meets "not found"
    is attempted three times. *)
Lemma business_errors_are_retried : ¬ business_errors_not_retried.
Proof.
  intros Hclaim. specialize (Hclaim not_found_network).
  assert (Hpre : ∀ k, ∃ body, not_found_network k = Response 404 body
                              ∨ not_found_network k = Response 401 body)
    by (intros k; exists "Not Found"; by left).
  specialize (Hclaim Hpre). vm_compute in Hclaim. discriminate Hclaim.
Qed.

Lemma retry_if_exception_type_iff e :
  retry_if_exception_type e = true
  ↔ (∃ status, e = ClientResponseError status) ∨ e = ClientConnectionError
    ∨ e = TimeoutError.
Proof.
  destruct e; cbn; split; try done; eauto.
  - intros [[? ?]|[?|?]]; done.
Qed.

Lemma retried_before_S exchanges k :
  retried_before exchanges (S k)
  ↔ retried_before exchanges k
    ∧ ((1 ≤ k)%nat →
       ∃ e, make_request_once (exchanges k) = inr e ∧ retry_if_exception_type e = true).
Proof.
  unfold retried_before. split.
  - intros H. split; [intros j Hj; apply H; lia|intros Hk; apply H; lia].
  - intros [H Hk] j Hj. destruct (decide (j = k)) as [->|Hne]; [apply Hk; lia|apply H; lia].
Qed.

Lemma retrying_step budget exchanges k sleeps :
  retrying budget exchanges k sleeps
  = match make_request_once (exchanges k) with
    | inl body => mkRun (Returned body) k sleeps
    | inr e =>
        if negb (retry_if_exception_type e) then mkRun (Reraised e) k sleeps
        else if stop_after_attempt k then mkRun (RetryError e) k sleeps
        else
          match budget with
          | O => mkRun (RetryError e) k sleeps
          | S budget' =>
              retrying budget' exchanges (S k) (sleeps ++ [wait_exponential k])
          end
    end.
Proof. by destruct budget. Qed.

(** C6, amended.  [_make_request] goes on to a further attempt exactly when
    every attempt so far raised an exception of class [aiohttp.ClientError]
    or [asyncio.TimeoutError] and fewer than three attempts were made, and
    it sleeps 4 seconds before each further attempt.  So the call is
    settled by the first attempt [k] that is not followed by another: when
    attempt [k] returns, its value is returned after [k] attempts; when it
    raises an exception outside the two classes, that exception propagates
    after [k] attempts; when the third attempt raises an exception of the
    two classes, the call ends in a [RetryError].  The [ClientResponseError]
    that [raise_for_status] raises for any status from 400 on (404 and 401
    among them) is a [ClientError]: it is retried, and a request that always
    meets such a status is attempted three times. *)
Theorem make_request_retry_policy (exchanges : nat → Exchange) :
  let run := _make_request exchanges in
  let once k := make_request_once (exchanges k) in
  (1 ≤ run_attempts run ≤ 3)%nat
  ∧ run_sleeps run = replicate (run_attempts run - 1) 4%Z
  ∧ (∀ k, (1 ≤ k)%nat →
       (k < run_attempts run)%nat
       ↔ (k < 3)%nat ∧ retried_before exchanges (S k))
  ∧ (∀ k, (1 ≤ k ≤ 3)%nat → retried_before exchanges k →
       match once k with
       | inl body => run = mkRun (Returned body) k (replicate (k - 1) 4%Z)
       | inr e =>
           if retry_if_exception_type e
           then k = 3%nat → run = mkRun (RetryError e) 3 [4; 4]%Z
           else run = mkRun (Reraised e) k (replicate (k - 1) 4%Z)
       end)
  ∧ (∀ e, retry_if_exception_type e = true
          ↔ (∃ status, e = ClientResponseError status) ∨ e = ClientConnectionError
            ∨ e = TimeoutError)
  ∧ (∀ status body,
       make_request_once (Response status body)
       = if (400 <=? status)%Z then inr (ClientResponseError status) else inl body)
  ∧ ((∀ k, ∃ status body, (400 ≤ status)%Z ∧ exchanges k = Response status body) →
       ∃ status, run = mkRun (RetryError (ClientResponseError status)) 3 [4; 4]%Z).
Proof.
  cbn zeta.
  assert (Hone : ∀ e, make_request_once (exchanges 1%nat) = inr e →
            retry_if_exception_type e = true →
            _make_request exchanges = retrying 2 exchanges 2 [4%Z]).
  { intros e He Hr. unfold _make_request. cbn [retrying]. by rewrite He, Hr. }
  assert (Htwo : ∀ e, make_request_once (exchanges 2%nat) = inr e →
            retry_if_exception_type e = true →
            retrying 2 exchanges 2 [4%Z] = retrying 1 exchanges 3 [4%Z; 4%Z]).
  { intros e He Hr. cbn [retrying]. by rewrite He, Hr. }
  assert (Hrun : ∀ k, (1 ≤ k ≤ 3)%nat → retried_before exchanges k →
            _make_request exchanges
            = retrying (4 - k) exchanges k (replicate (k - 1) 4%Z)).
  { intros k Hk Hret.
    assert (k = 1 ∨ k = 2 ∨ k = 3)%nat as [-> | [-> | ->]] by lia.
    - reflexivity.
    - destruct (Hret 1%nat ltac:(lia)) as (e & He & Hr). by rewrite (Hone e).
    - destruct (Hret 1%nat ltac:(lia)) as (e1 & He1 & Hr1).
      destruct (Hret 2%nat ltac:(lia)) as (e2 & He2 & Hr2).
      by rewrite (Hone e1), (Htwo e2). }
  assert (Hsettle : ∀ k, (1 ≤ k ≤ 3)%nat → retried_before exchanges k →
       match make_request_once (exchanges k) with
       | inl body =>
           _make_request exchanges = mkRun (Returned body) k (replicate (k - 1) 4%Z)
       | inr e =>
           if retry_if_exception_type e
           then k = 3%nat → _make_request exchanges = mkRun (RetryError e) 3 [4; 4]%Z
           else _make_request exchanges = mkRun (Reraised e) k (replicate (k - 1) 4%Z)
       end).
  { intros k Hk Hret. rewrite (Hrun k Hk Hret), retrying_step.
    destruct (make_request_once (exchanges k)) as [body|e]; [reflexivity|].
    destruct (retry_if_exception_type e); cbn [negb]; [|reflexivity].
    intros ->. reflexivity. }
  assert (Hzero : retried_before exchanges 1).
  { intros j Hj. lia. }
  split; [|split; [|split; [|split; [exact Hsettle|split;
    [exact retry_if_exception_type_iff|split; [reflexivity|]]]]]].
  - pose proof (Hsettle 1%nat ltac:(lia) Hzero) as H1.
    destruct (make_request_once (exchanges 1%nat)) as [b1|e1] eqn:E1;
      [rewrite H1; cbn; lia|].
    destruct (retry_if_exception_type e1) eqn:R1; [|rewrite H1; cbn; lia].
    assert (Hb2 : retried_before exchanges 2).
    { apply retried_before_S. split; [done|]. intros _. eauto. }
    pose proof (Hsettle 2%nat ltac:(lia) Hb2) as H2.
    destruct (make_request_once (exchanges 2%nat)) as [b2|e2] eqn:E2;
      [rewrite H2; cbn; lia|].
    destruct (retry_if_exception_type e2) eqn:R2; [|rewrite H2; cbn; lia].
    assert (Hb3 : retried_before exchanges 3).
    { apply retried_before_S. split; [done|]. intros _. eauto. }
    pose proof (Hsettle 3%nat ltac:(lia) Hb3) as H3.
    destruct (make_request_once (exchanges 3%nat)) as [b3|e3] eqn:E3;
      [rewrite H3; cbn; lia|].
    destruct (retry_if_exception_type e3) eqn:R3; [rewrite H3 by done|rewrite H3]; cbn; lia.
  - pose proof (Hsettle 1%nat ltac:(lia) Hzero) as H1.
    destruct (make_request_once (exchanges 1%nat)) as [b1|e1] eqn:E1;
      [by rewrite H1|].
    destruct (retry_if_exception_type e1) eqn:R1; [|by rewrite H1].
    assert (Hb2 : retried_before exchanges 2).
    { apply retried_before_S. split; [done|]. intros _. eauto. }
    pose proof (Hsettle 2%nat ltac:(lia) Hb2) as H2.
    destruct (make_request_once (exchanges 2%nat)) as [b2|e2] eqn:E2;
      [by rewrite H2|].
    destruct (retry_if_exception_type e2) eqn:R2; [|by rewrite H2].
    assert (Hb3 : retried_before exchanges 3).
    { apply retried_before_S. split; [done|]. intros _. eauto. }
    pose proof (Hsettle 3%nat ltac:(lia) Hb3) as H3.
    destruct (make_request_once (exchanges 3%nat)) as [b3|e3] eqn:E3;
      [by rewrite H3|].
    destruct (retry_if_exception_type e3) eqn:R3; [by rewrite H3|by rewrite H3].
  - intros k Hk.
    pose proof (Hsettle 1%nat ltac:(lia) Hzero) as H1.
    destruct (make_request_once (exchanges 1%nat)) as [b1|e1] eqn:E1.
    { rewrite H1. cbn [run_attempts]. split; [lia|]. intros [Hlt Hret].
      destruct (Hret 1%nat ltac:(lia)) as (e & He & _). congruence. }
    destruct (retry_if_exception_type e1) eqn:R1.
    2:{ rewrite H1. cbn [run_attempts]. split; [lia|]. intros [Hlt Hret].
        destruct (Hret 1%nat ltac:(lia)) as (e & He & Hr). congruence. }
    assert (Hb2 : retried_before exchanges 2).
    { apply retried_before_S. split; [done|]. intros _. eauto. }
    pose proof (Hsettle 2%nat ltac:(lia) Hb2) as H2.
    destruct (make_request_once (exchanges 2%nat)) as [b2|e2] eqn:E2.
    { rewrite H2. cbn [run_attempts]. split.
      - intros Hlt. assert (k = 1%nat) as -> by lia. split; [lia|done].
      - intros [Hlt Hret]. assert (k = 1 ∨ k = 2)%nat as [-> | ->] by lia; [lia|].
        destruct (Hret 2%nat ltac:(lia)) as (e & He & _). congruence. }
    destruct (retry_if_exception_type e2) eqn:R2.
    2:{ rewrite H2. cbn [run_attempts]. split.
        - intros Hlt. assert (k = 1%nat) as -> by lia. split; [lia|done].
        - intros [Hlt Hret]. assert (k = 1 ∨ k = 2)%nat as [-> | ->] by lia; [lia|].
          destruct (Hret 2%nat ltac:(lia)) as (e & He & Hr). congruence. }
    assert (Hb3 : retried_before exchanges 3).
    { apply retried_before_S. split; [done|]. intros _. eauto. }
    assert (Hthree : run_attempts (_make_request exchanges) = 3%nat).
    { pose proof (Hsettle 3%nat ltac:(lia) Hb3) as H3.
      destruct (make_request_once (exchanges 3%nat)) as [b3|e3]; [by rewrite H3|].
      destruct (retry_if_exception_type e3); [by rewrite H3|by rewrite H3]. }
    rewrite Hthree. split.
    + intros Hlt. split; [done|].
      assert (k = 1 ∨ k = 2)%nat as [-> | ->] by lia; done.
    + intros [Hlt _]. done.
  - intros Hall.
    assert (Hk : ∀ k, ∃ status, make_request_once (exchanges k) = inr (ClientResponseError status)).
    { intros k. destruct (Hall k) as (status & body & Hs & ->). exists status.
      by apply error_status_is_retried. }
    assert (Hb3 : retried_before exchanges 3).
    { intros j _. destruct (Hk j) as [status Hj]. by exists (ClientResponseError status). }
    pose proof (Hsettle 3%nat ltac:(lia) Hb3) as H3.
    destruct (Hk 3%nat) as [status H3']. rewrite H3' in H3. cbn in H3.
    exists status. by apply H3.
Qed.

Lemma make_request_retry_policy_witness :
  retried_before flaky_network 3
  ∧ _make_request flaky_network = mkRun (Returned "ok") 3 [4; 4]%Z
  ∧ _make_request garbled_network = mkRun (Reraised (OtherError "UnicodeDecodeError")) 1 []
  ∧ ∃ status,
      _make_request not_found_network
      = mkRun (RetryError (ClientResponseError status)) 3 [4; 4]%Z.
Proof.
  assert (H3 : retried_before flaky_network 3).
  { intros j Hj. exists TimeoutError.
    assert (j = 1 ∨ j = 2)%nat as [-> | ->] by lia; split; reflexivity. }
  split; [exact H3|]. split; [|split].
  - destruct (make_request_retry_policy flaky_network) as (_ & _ & _ & H & _).
    exact (H 3%nat ltac:(lia) H3).
  - destruct (make_request_retry_policy garbled_network) as (_ & _ & _ & H & _).
    refine (H 1%nat ltac:(lia) _). intros j Hj. lia.
  - destruct (make_request_retry_policy not_found_network) as (_ & _ & _ & _ & _ & _ & H).
    apply H. intros k. exists 404%Z, "Not Found". split; [lia|reflexivity].
Defined.

(** ** Job bodies and the active-job table *)

Lemma keeps_manager_ret {A} (a : A) : keeps_manager (ret a).
Proof. done. Qed.

Lemma keeps_manager_raise {A} e : keeps_manager (@raise A e).
Proof. done. Qed.

Lemma keeps_manager_get_world : keeps_manager get_world.
Proof. done. Qed.

Lemma keeps_manager_with_database f : keeps_manager (modify (with_database f)).
Proof. done. Qed.

Lemma keeps_manager_bind {A B} (m : Py A) (k : A → Py B) :
  keeps_manager m → (∀ a, keeps_manager (k a)) → keeps_manager (bind m k).
Proof.
  intros Hm Hk w. unfold bind. specialize (Hm w).
  destruct (m w) as [[a|e] w']; cbn in *; [|done].
  by rewrite Hk.
Qed.

Lemma keeps_manager_try_except {A} (m : Py A) h :
  keeps_manager m → (∀ e, keeps_manager (h e)) → keeps_manager (try_except m h).
Proof.
  intros Hm Hh w. unfold try_except. specialize (Hm w).
  destruct (m w) as [[a|e] w']; cbn in *; [done|].
  destruct (is_Exception e); [|done]. by rewrite Hh.
Qed.

Lemma keeps_manager_for_each {A S} (body : S → A → Py S) l :
  (∀ s a, keeps_manager (body s a)) → ∀ s, keeps_manager (for_each body l s).
Proof.
  intros Hbody. induction l as [|a l IH]; intros s; cbn.
  - apply keeps_manager_ret.
  - apply keeps_manager_bind; [apply Hbody|done].
Qed.

Create HintDb frame.
#[local] Hint Resolve keeps_manager_ret keeps_manager_raise keeps_manager_get_world
  keeps_manager_with_database : frame.
#[local] Hint Extern 2 (keeps_manager (bind _ _)) =>
  apply keeps_manager_bind; [|intros ?] : frame.
#[local] Hint Extern 2 (keeps_manager (try_except _ _)) =>
  apply keeps_manager_try_except; [|intros ?] : frame.
#[local] Hint Extern 3 (keeps_manager (match ?x with _ => _ end)) => destruct x : frame.
#[local] Hint Extern 3 (keeps_manager (if ?x then _ else _)) => destruct x : frame.

Lemma keeps_manager_save_post post : keeps_manager (save_post post).
Proof. unfold save_post. auto 10 with frame. Qed.

Lemma keeps_manager_update_job_status jid st u : keeps_manager (update_job_status jid st u).
Proof. unfold update_job_status. auto with frame. Qed.

Lemma keeps_manager_now : keeps_manager now.
Proof. unfold now. auto with frame. Qed.

#[local] Hint Resolve keeps_manager_save_post keeps_manager_update_job_status
  keeps_manager_now : frame.

Lemma keeps_manager_attempt {A} (m : Py A) : keeps_manager m → keeps_manager (attempt m).
Proof. intros H. unfold attempt. auto with frame. Qed.

Lemma keeps_manager_save_comment r c : keeps_manager (save_comment r c).
Proof.
  unfold save_comment. apply keeps_manager_bind.
  - apply keeps_manager_attempt. auto with frame.
  - intros [?|?]; auto with frame.
Qed.

Lemma keeps_manager_process_post sc job r post : keeps_manager (process_post sc job r post).
Proof.
  unfold process_post. destruct (_ && _); [auto with frame|].
  apply keeps_manager_bind.
  - apply keeps_manager_attempt. auto with frame.
  - intros [?|?]; [|auto with frame].
    destruct (include_comments job); [|auto with frame].
    apply keeps_manager_bind.
    + apply keeps_manager_for_each. apply keeps_manager_save_comment.
    + intros ?. destruct (failure _); auto with frame.
Qed.

(** [run_scraping_job] leaves the active-job table alone: nothing in it
    removes the entry of its job. *)
Lemma keeps_manager_run_scraping_job_resume sc job :
  keeps_manager (run_scraping_job_resume (ret tt) sc job).
Proof.
  unfold run_scraping_job_resume.
  apply keeps_manager_bind; [auto with frame|intros _].
  apply keeps_manager_bind.
  - apply keeps_manager_for_each. apply keeps_manager_process_post.
  - intros r. apply keeps_manager_bind; [auto with frame|intros t].
    destruct (failure _); auto 10 with frame.
Qed.

(** The event loop finishing a [run_scraping_job] task: the entry of the job
    stays in the table, now with a task that is done. *)
Lemma loop_resume_keeps_entry jid sc job w :
  active_jobs (manager w) !! jid = Some (mkTask (run_scraping_job_coro sc job) Suspended) →
  ∃ st, active_jobs (manager (exec (loop_resume jid) w)) !! jid
        = Some (mkTask (run_scraping_job_coro sc job) st)
        ∧ task_done (mkTask (run_scraping_job_coro sc job) st) = true.
Proof.
  intros Hjid. unfold exec, loop_resume, bind at 1, get_world. rewrite Hjid.
  unfold coro_resume, bind at 1.
  pose proof (keeps_manager_run_scraping_job_resume sc job w) as Hkeep.
  destruct (run_scraping_job_resume (ret tt) sc job w) as [[r|e] w']; cbn in Hkeep |- *.
  - exists Finished. by rewrite Hkeep, lookup_alter_eq, Hjid.
  - destruct e; [exists Finished..|exists Cancelled|exists Finished|exists Finished|exists Finished];
      cbn; by rewrite Hkeep, lookup_alter_eq, Hjid.
Qed.

(** Cancelling a [run_scraping_job] task, in whatever state, changes neither
    the database nor the set of entries of the table. *)
Lemma cancel_and_await_legacy jid sc job st w :
  active_jobs (manager w) !! jid = Some (mkTask (run_scraping_job_coro sc job) st) →
  ∃ st', cancel_and_await jid (mkTask (run_scraping_job_coro sc job) st) w
         = (Return tt,
            with_manager (fun m =>
              set_active_jobs (<[jid := mkTask (run_scraping_job_coro sc job) st']>
                                 (active_jobs m)) m) w).
Proof.
  intros Hjid.
  assert (Hself : ∀ st', with_manager (fun m =>
            set_active_jobs (alter (fun t => mkTask (coro t) st') jid (active_jobs m)) m) w
          = with_manager (fun m =>
            set_active_jobs (<[jid := mkTask (run_scraping_job_coro sc job) st']>
                               (active_jobs m)) m) w).
  { intros st'. unfold with_manager, set_active_jobs. do 2 f_equal.
    apply map_eq. intros j. destruct (decide (j = jid)) as [->|Hne].
    - by rewrite lookup_alter_eq, lookup_insert_eq, Hjid.
    - by rewrite lookup_alter_ne, lookup_insert_ne. }
  destruct st; cbn.
  - exists Cancelled. unfold set_task_state, modify. by rewrite Hself.
  - exists Cancelled. unfold set_task_state, modify. by rewrite Hself.
  - exists Finished. unfold ret. f_equal. destruct w as [[regs jobs] db t net].
    unfold with_manager, set_active_jobs. cbn in *. do 2 f_equal.
    by rewrite insert_id.
  - exists Cancelled. unfold ret. f_equal. destruct w as [[regs jobs] db t net].
    unfold with_manager, set_active_jobs. cbn in *. do 2 f_equal.
    by rewrite insert_id.
Qed.

(** [stop_job] on a job whose [run_scraping_job] task is in the active-job
    table, running or not: the entry is removed, the row of the job is
    marked cancelled with [completed_at], and the call returns true. *)
Lemma stop_job_legacy jid sc job st w :
  active_jobs (manager w) !! jid = Some (mkTask (run_scraping_job_coro sc job) st) →
  stop_job jid w
  = (Return true,
     mkWorld (set_active_jobs (delete jid (active_jobs (manager w))) (manager w))
             (mark_cancelled jid (utcnow w) (database w))
             (utcnow w) (network w)).
Proof.
  intros Hjid. unfold stop_job, bind at 1, get_world. rewrite Hjid.
  destruct (cancel_and_await_legacy jid sc job st w Hjid) as [st' Hc].
  unfold bind at 1. rewrite Hc.
  unfold bind at 1, del_active_job, bind at 1, get_world. cbn.
  rewrite lookup_insert_eq. cbn.
  unfold ret, with_database, with_manager, set_active_jobs, mark_cancelled. cbn.
  by rewrite delete_insert_eq.
Qed.

(** [_run_job_with_fallback] does the same whatever the keywords of its
    job are. *)
Lemma fallback_job_keywords_irrelevant job kws preferred :
  _run_job_with_fallback (with_keywords job kws) preferred
  = _run_job_with_fallback job preferred.
Proof. reflexivity. Qed.

(** [run_scraping_job] does filter: a post that matches no keyword of a
    non-empty keyword list is skipped, the database and the counters stay
    as they are. *)
Lemma process_post_discards sc job r post w :
  keywords job ≠ [] →
  _matches_keywords (post_content post) (keywords job) = false →
  process_post sc job r post w = (Return r, w).
Proof.
  intros Hne Hno. unfold process_post. rewrite Hno.
  by rewrite bool_decide_eq_false_2.
Qed.

(** A post that matches, or any post when there is no keyword, is saved and
    counted when its id is new. *)
Lemma process_post_keeps sc job r post w :
  keywords job = [] ∨ _matches_keywords (post_content post) (keywords job) = true →
  include_comments job = false →
  has_post (post_id post) (database w) = false →
  process_post sc job r post w
  = (Return (count_post r),
     with_database (fun db => mkDb (scraped_posts db ++ [post]) (scraping_jobs db)) w).
Proof.
  intros Hkw Hnc Hfresh. unfold process_post.
  assert (negb (bool_decide (keywords job = []))
          && negb (_matches_keywords (post_content post) (keywords job)) = false) as ->.
  { destruct Hkw as [->| ->]; [done|]. by rewrite andb_false_r. }
  unfold bind at 1, attempt, try_except, bind at 1.
  rewrite (save_post_fresh post w Hfresh). cbn. by rewrite Hnc.
Qed.

(** The recursion budget of the retry loop is never what ends it. *)
Lemma retrying_budget_irrelevant budget exchanges :
  (2 ≤ budget)%nat → retrying budget exchanges 1 [] = _make_request exchanges.
Proof.
  intros Hb. unfold _make_request.
  destruct budget as [|[|budget]]; [lia|lia|]. cbn [retrying].
  destruct (make_request_once (exchanges 1%nat)); [done|].
  destruct (negb _); [done|]. cbn [stop_after_attempt Nat.leb].
  destruct (make_request_once (exchanges 2%nat)); [done|].
  destruct (negb _); [done|].
  destruct budget; cbn [retrying stop_after_attempt Nat.leb];
    destruct (make_request_once (exchanges 3%nat)); try done;
    destruct (negb _); done.
Qed.

(** * Further properties of the code *)

(** ** _matches_keywords *)

Lemma prefix_spec (p s : string) :
  String.prefix p s = true ↔ ∃ t, s = p +:+ t.
Proof.
  revert s. induction p as [|c p IH]; intros s; cbn.
  - destruct s; cbn; (split; [intros _; by eexists|done]).
  - destruct s as [|c' s]; cbn.
    + split; [done|]. by intros [t [=]].
    + destruct (Ascii.ascii_dec c c') as [->|Hne].
      * rewrite IH. split; intros [t Ht]; exists t; cbn in *;
          [by rewrite Ht|by injection Ht].
      * split; [done|]. intros [t [= ? ?]]. done.
Qed.

(** [contains] is Python's [in] on strings. *)
Lemma contains_spec (needle hay : string) :
  contains needle hay = true ↔ ∃ a b, hay = a +:+ needle +:+ b.
Proof.
  induction hay as [|c hay IH]; cbn [contains].
  - rewrite orb_false_r, prefix_spec. split.
    + intros [t Ht]. by exists "", t.
    + intros ([|c a] & b & Hab); cbn in Hab; [by exists b|done].
  - rewrite orb_true_iff, prefix_spec, IH. split.
    + intros [[t Ht]|(a & b & Hab)].
      * by exists "", t.
      * exists (String c a), b. cbn. by rewrite Hab.
    + intros ([|c' a] & b & Hab); cbn in Hab.
      * left. by exists b.
      * right. injection Hab as -> ->. by exists a, b.
Qed.

(** X1: [_matches_keywords] holds exactly when some keyword of the list,
    put in lower case by [str.lower], occurs as a substring of the content
    put in lower case.  An empty keyword list matches nothing, and a list
    with a keyword whose lower case is the empty string matches every
    content. *)
Theorem matches_keywords_iff (content : string) (kws : list string) :
  (_matches_keywords content kws = true
   ↔ ∃ k, k ∈ kws ∧ ∃ a b, lower content = a +:+ lower k +:+ b)
  ∧ _matches_keywords content [] = false
  ∧ (∀ k, k ∈ kws → lower k = "" → _matches_keywords content kws = true).
Proof.
  assert (Hiff : _matches_keywords content kws = true
   ↔ ∃ k, k ∈ kws ∧ ∃ a b, lower content = a +:+ lower k +:+ b).
  { unfold _matches_keywords. rewrite existsb_exists. split.
    - intros (k & Hin & Hk). exists k. split; [by apply list_elem_of_In|].
      by apply contains_spec.
    - intros (k & Hin & Hk). exists k. split; [by apply list_elem_of_In|].
      by apply contains_spec. }
  split; [done|]. split; [done|].
  intros k Hin Hk. apply Hiff. exists k. split; [done|].
  rewrite Hk. by exists "", (lower content).
Qed.

(** ** DatabaseManager *)

(** X3: [save_post] only ever appends: the rows already stored stay as
    they are and in place, at most the given record is added, and after the
    call, whether it returned or raised, a row with the id of the record is
    stored.  The jobs table and the manager are not touched, and ids that
    were pairwise distinct stay so. *)
Theorem save_post_appends_only (p : ScrapedPost) (w : World) :
  let w' := exec (save_post p) w in
  (∃ added, scraped_posts (database w') = scraped_posts (database w) ++ added
            ∧ (added = [] ∨ added = [p]))
  ∧ has_post (post_id p) (database w') = true
  ∧ scraping_jobs (database w') = scraping_jobs (database w)
  ∧ manager w' = manager w
  ∧ (NoDup (post_id <$> scraped_posts (database w)) →
     NoDup (post_id <$> scraped_posts (database w'))).
Proof.
  cbn zeta. split; [|split; [|split; [|split]]].
  - unfold exec. destruct (has_post (post_id p) (database w)) eqn:Hp.
    + rewrite save_post_stored by done. exists []. split; [by rewrite app_nil_r|by left].
    + rewrite save_post_fresh by done. exists [p]. split; [done|by right].
  - unfold exec. destruct (has_post (post_id p) (database w)) eqn:Hp.
    + by rewrite save_post_stored.
    + rewrite save_post_fresh by done. cbn. unfold has_post. apply bool_decide_eq_true.
      cbn. rewrite fmap_app. apply elem_of_app. right. by apply list_elem_of_singleton.
  - unfold exec. destruct (has_post (post_id p) (database w)) eqn:Hp.
    + by rewrite save_post_stored.
    + by rewrite save_post_fresh.
  - apply keeps_manager_save_post.
  - apply save_post_keeps_ids_distinct.
Qed.


Lemma save_post_appends_only_witness :
  NoDup (post_id <$> scraped_posts (database (exec (save_post post_rust) world_reddit))).
Proof.
  destruct (save_post_appends_only post_rust world_reddit) as (_ & _ & _ & _ & H).
  apply H. apply NoDup_nil_2.
Defined.


(** ** Creating, starting and stopping jobs *)



Lemma start_job_active jid t w :
  active_jobs (manager w) !! jid = Some t → start_job jid w = (Return false, w).
Proof. intros H. unfold start_job, bind, get_world. cbn. by rewrite H. Qed.

Lemma start_job_unknown jid w :
  active_jobs (manager w) !! jid = None →
  scraping_jobs (database w) !! jid = None →
  start_job jid w = (Return false, w).
Proof.
  intros H1 H2. unfold start_job, db_get_job_status, bind, get_world. cbn.
  by rewrite H1, H2.
Qed.

Lemma Platform_of_value_value p w : Platform_of_value (Platform_value p) w = (Return p, w).
Proof. by destruct p. Qed.

Lemma start_job_stored jid row p w :
  active_jobs (manager w) !! jid = None →
  scraping_jobs (database w) !! jid = Some row →
  row_platform row = Platform_value p →
  start_job jid w
  = (Raise (AttributeError "'EnhancedScraperManager' object has no attribute 'scrapers'"), w).
Proof.
  intros Hact Hrow Hp.
  unfold start_job, db_get_job_status, bind at 1, get_world. rewrite Hact.
  unfold bind at 1, bind at 1, get_world. cbn [ret]. rewrite Hrow.
  unfold bind at 1. by rewrite Hp, Platform_of_value_value.
Qed.

(** [start_job] writes nothing: not to the manager, not to the database. *)
Lemma start_job_keeps_world jid w : exec (start_job jid) w = w.
Proof.
  unfold exec, start_job, db_get_job_status, bind at 1, get_world.
  destruct (active_jobs (manager w) !! jid); [done|].
  unfold bind at 1, bind at 1, get_world. cbn [ret].
  destruct (scraping_jobs (database w) !! jid) as [row|]; [|done].
  unfold bind at 1, Platform_of_value.
  destruct (decide (row_platform row = "reddit")); [done|].
  by destruct (decide (row_platform row = "twitter")).
Qed.

Lemma start_job_not_true jid w : result (start_job jid) w ≠ Return true.
Proof.
  unfold result, start_job, db_get_job_status, bind at 1, get_world.
  destruct (active_jobs (manager w) !! jid); [done|].
  unfold bind at 1, bind at 1, get_world. cbn [ret].
  destruct (scraping_jobs (database w) !! jid) as [row|]; [|done].
  unfold bind at 1, Platform_of_value.
  destruct (decide (row_platform row = "reddit")); [done|].
  by destruct (decide (row_platform row = "twitter")).
Qed.

(** X7: [start_job] never starts a job.  It returns false when the job is
    already in the active-job table and when no job with this id is stored.
    For a stored job that is not in the table it raises the
    [AttributeError] of [self.scrapers], an attribute that the manager does
    not have.  It never returns true, and whatever it does it leaves the
    world as it is: no task is created and nothing is put into the
    active-job table. *)
Theorem start_job_never_starts (jid : string) (w : World) :
  (is_Some (active_jobs (manager w) !! jid) → start_job jid w = (Return false, w))
  ∧ (active_jobs (manager w) !! jid = None →
     scraping_jobs (database w) !! jid = None →
     start_job jid w = (Return false, w))
  ∧ (∀ row p,
       active_jobs (manager w) !! jid = None →
       scraping_jobs (database w) !! jid = Some row →
       row_platform row = Platform_value p →
       ∃ name, start_job jid w = (Raise (AttributeError name), w))
  ∧ result (start_job jid) w ≠ Return true
  ∧ exec (start_job jid) w = w.
Proof.
  split; [|split; [|split; [|split]]].
  - intros [t Ht]. by eapply start_job_active.
  - apply start_job_unknown.
  - intros row p Hact Hrow Hp. eexists. by eapply start_job_stored.
  - apply start_job_not_true.
  - apply start_job_keeps_world.
Qed.


Lemma start_job_never_starts_witness :
  start_job "job-7" world_job_created = (Return false, world_job_created)
  ∧ ∃ name, start_job "job-1" world_job_created
            = (Raise (AttributeError name), world_job_created).
Proof.
  split.
  - destruct (start_job_never_starts "job-7" world_job_created) as (_ & H & _).
    apply H; reflexivity.
  - destruct (start_job_never_starts "job-1" world_job_created) as (_ & _ & H & _).
    apply (H (job_row sample_job) REDDIT); reflexivity.
Defined.

(** ** run_scraping_job *)

Lemma accounted_refl r w : accounted r w r w.
Proof. exists []. rewrite app_nil_r. cbn. repeat split; lia. Qed.

Lemma accounted_trans r1 w1 r2 w2 r3 w3 :
  accounted r1 w1 r2 w2 → accounted r2 w2 r3 w3 → accounted r1 w1 r3 w3.
Proof.
  intros (a1 & H1 & L1 & P1 & C1 & J1 & M1 & T1 & N1 & S1)
         (a2 & H2 & L2 & P2 & C2 & J2 & M2 & T2 & N2 & S2).
  exists (a1 ++ a2). rewrite H2, H1, app_assoc, length_app.
  repeat split; try lia; congruence.
Qed.

Lemma save_post_cases post w :
  (has_post (post_id post) (database w) = false
   ∧ save_post post w
     = (Return (post_id post),
        with_database (fun db => mkDb (scraped_posts db ++ [post]) (scraping_jobs db)) w))
  ∨ (has_post (post_id post) (database w) = true
     ∧ save_post post w = (Raise (IntegrityError (post_id post)), w)).
Proof.
  destruct (has_post (post_id post) (database w)) eqn:H.
  - right. split; [done|]. by apply save_post_stored.
  - left. split; [done|]. by apply save_post_fresh.
Qed.

(** A loop whose every round returns and is within a reflexive and
    transitive relation returns and is within it as a whole. *)
Lemma for_each_within {A S} (R : S → World → S → World → Prop)
    (body : S → A → Py S) l :
  (∀ s w, R s w s w) →
  (∀ s1 w1 s2 w2 s3 w3, R s1 w1 s2 w2 → R s2 w2 s3 w3 → R s1 w1 s3 w3) →
  (∀ s a w, ∃ s' w', body s a w = (Return s', w') ∧ R s w s' w') →
  ∀ s w, ∃ s' w', for_each body l s w = (Return s', w') ∧ R s w s' w'.
Proof.
  intros Hrefl Htrans Hbody. induction l as [|a l IH]; intros s w; cbn.
  - eexists _, _. split; [done|]. apply Hrefl.
  - unfold bind. destruct (Hbody s a w) as (s1 & w1 & -> & H1).
    destruct (IH s1 w1) as (s2 & w2 & -> & H2).
    eexists _, _. split; [done|]. by eapply Htrans.
Qed.

Lemma save_comment_accounted r c w :
  ∃ r' w', save_comment r c w = (Return r', w') ∧ accounted r w r' w'.
Proof.
  unfold save_comment, bind at 1, attempt, try_except, bind at 1.
  destruct (save_post_cases c w) as [[_ ->]|[_ ->]]; cbn.
  - eexists _, _. split; [done|]. exists [c]. cbn. repeat split; lia.
  - eexists _, _. split; [done|]. exists []. cbn. rewrite app_nil_r. repeat split; lia.
Qed.

Lemma add_error_accounted r w r' w' e :
  accounted r w r' w' → accounted r w (add_error r' e) w'.
Proof. intros (a & H). by exists a. Qed.

Lemma process_post_accounted sc job r post w :
  ∃ r' w', process_post sc job r post w = (Return r', w')
           ∧ accounted r w r' w'
           ∧ (include_comments job = false → comments_scraped r' = comments_scraped r).
Proof.
  unfold process_post. destruct (_ && _).
  { eexists _, _. split; [done|]. split; [apply accounted_refl|done]. }
  unfold bind at 1, attempt, try_except, bind at 1.
  destruct (save_post_cases post w) as [[_ ->]|[_ ->]]; cbn.
  2:{ eexists _, _. split; [done|]. split; [|done].
      apply add_error_accounted, accounted_refl. }
  set (w1 := with_database _ w).
  assert (H1 : accounted r w (count_post r) w1).
  { exists [post]. cbn. repeat split; lia. }
  destruct (include_comments job).
  2:{ eexists _, _. split; [done|]. done. }
  unfold bind.
  destruct (for_each_within accounted save_comment
              (yielded (scrape_comments sc (post_id post)))
              accounted_refl accounted_trans save_comment_accounted
              (count_post r) w1) as (r2 & w2 & -> & H2).
  destruct (failure _).
  - eexists _, _. split; [done|]. split; [|done].
    apply add_error_accounted. by eapply accounted_trans.
  - eexists _, _. split; [done|]. split; [|done]. by eapply accounted_trans.
Qed.

Lemma update_job_status_run jid st u w :
  update_job_status jid st u w
  = (Return tt,
     mkWorld (manager w)
       (match scraping_jobs (database w) !! jid with
        | Some row => mkDb (scraped_posts (database w))
                           (<[jid := apply_update st u row]> (scraping_jobs (database w)))
        | None => database w
        end) (utcnow w) (network w)).
Proof. reflexivity. Qed.

(** The loop over the posts of a job. *)
Lemma process_posts_accounted sc job posts r w :
  ∃ r' w', for_each (process_post sc job) posts r w = (Return r', w')
           ∧ accounted r w r' w'
           ∧ (include_comments job = false → comments_scraped r' = comments_scraped r).
Proof.
  apply (for_each_within
           (fun r w r' w' => accounted r w r' w'
              ∧ (include_comments job = false → comments_scraped r' = comments_scraped r))).
  - intros s w0. split; [apply accounted_refl|done].
  - intros s1 w1 s2 w2 s3 w3 [H1 C1] [H2 C2]. split; [by eapply accounted_trans|].
    intros Hc. rewrite C2, C1; done.
  - intros s a w0. apply process_post_accounted.
Qed.

(** X9: [run_scraping_job] always returns its result, never raises, keeps
    the rows of [scraped_posts] from before in place, and leaves the manager
    as it was.  The result is a success exactly when the generator of
    [scrape_posts] did not raise; then it accounts for what was stored: the
    number of rows added is the number of posts plus the number of comments
    that the result reports, and without [include_comments] no comment is
    counted.  When the generator raised, the result reports no post and no
    comment, however many rows the job added before that. *)
Theorem run_scraping_job_accounts (scraper : Scraper) (job : ScrapingJob) (w : World) :
  ∃ r w' added,
    run_scraping_job scraper job w = (Return r, w')
    ∧ scraped_posts (database w') = scraped_posts (database w) ++ added
    ∧ (success r = true ↔ failure (scrape_posts scraper (target job) (max_posts job)) = None)
    ∧ (failure (scrape_posts scraper (target job) (max_posts job)) = None →
         Z.of_nat (List.length added) = (posts_scraped r + comments_scraped r)%Z
         ∧ (0 ≤ posts_scraped r)%Z ∧ (0 ≤ comments_scraped r)%Z
         ∧ (include_comments job = false → comments_scraped r = 0%Z))
    ∧ (failure (scrape_posts scraper (target job) (max_posts job)) ≠ None →
         posts_scraped r = 0%Z ∧ comments_scraped r = 0%Z)
    ∧ manager w' = manager w.
Proof.
  unfold run_scraping_job, bind at 1, run_scraping_job_enter, bind at 1, now,
    bind at 1, get_world. cbn [ret].
  rewrite update_job_status_run.
  set (w0 := mkWorld _ _ _ _).
  assert (H0 : scraped_posts (database w0) = scraped_posts (database w)
               ∧ manager w0 = manager w).
  { subst w0. cbn. by destruct (scraping_jobs (database w) !! job_id job). }
  destruct H0 as [Hp0 Hm0].
  unfold run_scraping_job_resume, bind at 1. cbn [ret]. unfold bind at 1.
  destruct (process_posts_accounted scraper job
              (yielded (scrape_posts scraper (target job) (max_posts job)))
              (mkResult 0 0 [] false) w0)
    as (r1 & w1 & -> & (added & Ha & Hl & Hp & Hc & Hj & Hm & Ht & Hn & Hs) & Hnc).
  cbn in Hl, Hp, Hc, Hs, Hnc.
  unfold bind at 1, now, bind at 1, get_world. cbn [ret].
  destruct (failure _) eqn:Hf.
  - unfold bind at 1. rewrite update_job_status_run. cbn [ret].
    eexists _, _, added. split; [done|]. cbn.
    split; [|split; [done|split; [done|split; [done|congruence]]]].
    destruct (scraping_jobs (database w1) !! job_id job); cbn; congruence.
  - unfold bind at 1. rewrite update_job_status_run. cbn [ret].
    eexists _, _, added. split; [done|]. cbn.
    split; [|split; [done|split; [|split; [done|congruence]]]].
    + destruct (scraping_jobs (database w1) !! job_id job); cbn; congruence.
    + intros _. split; [lia|]. split; [lia|]. split; [lia|done].
Qed.

(** X10: the stored row of a job after [run_scraping_job]: it has
    [started_at] and [completed_at], and the rows of other jobs are as
    before.  When [scrape_posts] did not raise the row is completed and
    successful, with the counts and errors of the result.  When it raised
    the row is failed, its last error is the job failure, and its counts
    and success flag are those it had before the run, whatever the job had
    stored until then. *)
Theorem run_scraping_job_final_row (scraper : Scraper) (job : ScrapingJob)
    (row : ScrapingJobDB) (w : World) :
  scraping_jobs (database w) !! job_id job = Some row →
  ∃ r w' row',
    run_scraping_job scraper job w = (Return r, w')
    ∧ scraping_jobs (database w') !! job_id job = Some row'
    ∧ (∀ j, j ≠ job_id job →
         scraping_jobs (database w') !! j = scraping_jobs (database w) !! j)
    ∧ row_started_at row' = Some (utcnow w)
    ∧ row_completed_at row' = Some (utcnow w)
    ∧ match failure (scrape_posts scraper (target job) (max_posts job)) with
      | None =>
          row_status row' = "completed" ∧ row_success row' = true
          ∧ row_posts_scraped row' = posts_scraped r
          ∧ row_comments_scraped row' = comments_scraped r
          ∧ row_errors row' = errors r
      | Some e =>
          row_status row' = "failed" ∧ row_success row' = row_success row
          ∧ row_posts_scraped row' = row_posts_scraped row
          ∧ row_comments_scraped row' = row_comments_scraped row
          ∧ row_errors row' = errors r
          ∧ ∃ earlier, errors r = earlier ++ ["Job failed: " +:+ e]
      end.
Proof.
  intros Hrow.
  unfold run_scraping_job, bind at 1, run_scraping_job_enter, bind at 1, now,
    bind at 1, get_world. cbn [ret].
  rewrite update_job_status_run. rewrite Hrow.
  set (w0 := mkWorld _ _ _ _).
  unfold run_scraping_job_resume, bind at 1. cbn [ret]. unfold bind at 1.
  destruct (process_posts_accounted scraper job
              (yielded (scrape_posts scraper (target job) (max_posts job)))
              (mkResult 0 0 [] false) w0)
    as (r1 & w1 & -> & (added & Ha & Hl & Hp & Hc & Hj & Hm & Ht & Hn & Hs) & Hnc).
  unfold bind at 1, now, bind at 1, get_world. cbn [ret].
  assert (Hrow1 : scraping_jobs (database w1) !! job_id job
                  = Some (apply_update "running"
                            (mkUpdate (Some (utcnow w)) None None None None None) row)).
  { rewrite Hj. subst w0. cbn. apply lookup_insert_eq. }
  assert (Hother : ∀ j, j ≠ job_id job →
            scraping_jobs (database w1) !! j = scraping_jobs (database w) !! j).
  { intros j Hne. rewrite Hj. subst w0. cbn. by apply lookup_insert_ne. }
  assert (Hnow : utcnow w1 = utcnow w) by (rewrite Ht; done).
  destruct (failure _) eqn:Hf.
  - unfold bind at 1. rewrite update_job_status_run, Hrow1. cbn [ret].
    eexists _, _, _. split; [done|]. cbn.
    rewrite lookup_insert_eq. split; [done|]. cbn. rewrite Hnow.
    split; [intros j Hne; rewrite lookup_insert_ne by done; auto|].
    repeat split. by eexists.
  - unfold bind at 1. rewrite update_job_status_run, Hrow1. cbn [ret].
    eexists _, _, _. split; [done|]. cbn.
    rewrite lookup_insert_eq. split; [done|]. cbn. rewrite Hnow.
    split; [intros j Hne; rewrite lookup_insert_ne by done; auto|].
    repeat split.
Qed.

Lemma persisted_spec kws posts : ∀ table,
  ∃ added, persisted kws table posts = table ++ added
    ∧ added `sublist_of` posts
    ∧ Forall (fun post => kws = [] ∨ _matches_keywords (post_content post) kws = true) added
    ∧ (NoDup (post_id <$> table) → NoDup (post_id <$> table ++ added)).
Proof.
  induction posts as [|post posts IH]; intros table; cbn.
  - exists []. rewrite app_nil_r. repeat split; [done|constructor|done].
  - destruct (_ && _) eqn:Hkeep.
    + destruct (IH (table ++ [post])) as (added & -> & Hsub & Hall & Hnd).
      apply andb_true_iff in Hkeep as [Hk Hfresh].
      exists (post :: added). rewrite <- app_assoc. cbn.
      split; [done|]. split; [by apply sublist_skip|]. split.
      * apply Forall_cons. split; [|done].
        apply orb_true_iff in Hk as [Hk|Hk]; [left; by apply bool_decide_eq_true in Hk|by right].
      * intros Hnd0. rewrite (assoc_L (++) table [post] added : table ++ post :: added = (table ++ [post]) ++ added).
        apply Hnd. rewrite fmap_app. apply NoDup_app. split; [done|].
        split; [|apply NoDup_singleton].
        intros x Hx Hx'. apply list_elem_of_singleton in Hx' as ->.
        apply negb_true_iff, bool_decide_eq_false in Hfresh. done.
    + destruct (IH table) as (added & -> & Hsub & Hall & Hnd).
      exists added. split; [done|]. split; [by apply sublist_cons|]. done.
Qed.

Lemma process_post_duplicate sc job r post w :
  keywords job = [] ∨ _matches_keywords (post_content post) (keywords job) = true →
  has_post (post_id post) (database w) = true →
  process_post sc job r post w
  = (Return (add_error r ("Post processing error: "
                          +:+ exn_str (IntegrityError (post_id post)))), w).
Proof.
  intros Hkw Hdup. unfold process_post.
  assert (negb (bool_decide (keywords job = []))
          && negb (_matches_keywords (post_content post) (keywords job)) = false) as ->.
  { destruct Hkw as [->| ->]; [done|]. by rewrite andb_false_r. }
  unfold bind at 1, attempt, try_except, bind at 1.
  by rewrite (save_post_stored post w Hdup).
Qed.

Lemma process_posts_persisted sc job posts : ∀ r w,
  include_comments job = false →
  ∃ r', for_each (process_post sc job) posts r w
        = (Return r',
           stored (persisted (keywords job) (scraped_posts (database w)) posts) w).
Proof.
  induction posts as [|post posts IH]; intros r w Hnc; cbn [for_each persisted].
  - exists r. unfold ret, stored. by destruct w as [m [ps js] t net].
  - unfold bind.
    destruct (decide (keywords job = [] ∨
                      _matches_keywords (post_content post) (keywords job) = true))
      as [Hkw|Hkw].
    + assert (bool_decide (keywords job = [])
              || _matches_keywords (post_content post) (keywords job) = true) as ->.
      { destruct Hkw as [Hk|Hk]; [by rewrite bool_decide_eq_true_2|].
        rewrite Hk. apply orb_true_r. }
      cbn [andb].
      destruct (has_post (post_id post) (database w)) eqn:Hdup;
        unfold has_post in Hdup; rewrite Hdup; cbn [negb].
      * rewrite process_post_duplicate by done. by apply IH.
      * rewrite process_post_keeps by done.
        destruct (IH (count_post r)
          (with_database (fun db => mkDb (scraped_posts db ++ [post]) (scraping_jobs db)) w)
          Hnc) as [r' ->]. by exists r'.
    + assert (Hk : keywords job ≠ []) by tauto.
      assert (Hm : _matches_keywords (post_content post) (keywords job) = false).
      { destruct (_matches_keywords _ _); [tauto|done]. }
      rewrite Hm, bool_decide_eq_false_2 by done. cbn [orb andb].
      rewrite process_post_discards by done. by apply IH.
Qed.

(** X11: without [include_comments], the table of posts after
    [run_scraping_job] is the one obtained by passing the fetched posts, in
    order, through the keyword filter and an insert that skips a stored id:
    the rows added are a subsequence of the fetched posts, each of them
    matches a keyword unless the job has none, and ids that were pairwise
    distinct stay so. *)
Theorem run_scraping_job_persists_filtered (scraper : Scraper) (job : ScrapingJob)
    (w : World) :
  include_comments job = false →
  let fetched := yielded (scrape_posts scraper (target job) (max_posts job)) in
  let table := scraped_posts (database w) in
  let table' := scraped_posts (database (exec (run_scraping_job scraper job) w)) in
  table' = persisted (keywords job) table fetched
  ∧ ∃ added, table' = table ++ added
      ∧ added `sublist_of` fetched
      ∧ Forall (fun post =>
                  keywords job = []
                  ∨ _matches_keywords (post_content post) (keywords job) = true) added
      ∧ (NoDup (post_id <$> table) → NoDup (post_id <$> table')).
Proof.
  intros Hnc. cbn zeta.
  assert (Htable : scraped_posts (database (exec (run_scraping_job scraper job) w))
            = persisted (keywords job) (scraped_posts (database w))
                (yielded (scrape_posts scraper (target job) (max_posts job)))).
  { unfold exec, run_scraping_job, bind at 1, run_scraping_job_enter, bind at 1, now,
      bind at 1, get_world. cbn [ret].
    rewrite update_job_status_run.
    set (w0 := mkWorld _ _ _ _).
    assert (Hp0 : scraped_posts (database w0) = scraped_posts (database w)).
    { subst w0. cbn. by destruct (scraping_jobs (database w) !! job_id job). }
    unfold run_scraping_job_resume, bind at 1. cbn [ret]. unfold bind at 1.
    destruct (process_posts_persisted scraper job
                (yielded (scrape_posts scraper (target job) (max_posts job)))
                (mkResult 0 0 [] false) w0 Hnc) as [r1 ->].
    unfold bind at 1, now, bind at 1, get_world. cbn [ret]. rewrite Hp0.
    destruct (failure _); unfold bind at 1; rewrite update_job_status_run;
      unfold stored;
      cbn [ret snd database scraping_jobs scraped_posts manager utcnow network];
      destruct (scraping_jobs (database w0) !! job_id job); reflexivity. }
  split; [done|]. rewrite Htable.
  destruct (persisted_spec (keywords job)
              (yielded (scrape_posts scraper (target job) (max_posts job)))
              (scraped_posts (database w))) as (added & -> & Hsub & Hall & Hnd).
  by exists added.
Qed.

(** ** _run_job_with_fallback *)

Lemma attempt_strategy_database f p tgt n s w :
  attempt_strategy p tgt n s (with_database f w)
  = on_database f (attempt_strategy p tgt n s w).
Proof.
  unfold on_database, attempt_strategy, try_except, get_scraper, bind, get_world. cbn.
  destruct (assoc_get (strategies (manager w)) p) as [reg|]; cbn; [|done].
  destruct (registry_get reg s) as [sc|]; cbn; [|done].
  unfold drain, bind, modify, ret, raise. destruct (failure _); done.
Qed.

Lemma fallback_loop_database f p tgt n todo : ∀ last w,
  fallback_loop p tgt n todo last (with_database f w)
  = on_database f (fallback_loop p tgt n todo last w).
Proof.
  induction todo as [|s todo IH]; intros last w; [done|].
  cbn [fallback_loop]. unfold bind.
  rewrite attempt_strategy_database. unfold on_database at 1.
  destruct (attempt_strategy p tgt n s w) as [[[[|post posts]|e]|e] w']; cbn [fst snd];
    try done; apply IH.
Qed.

(** [scrape_with_fallback] does not read the database. *)
Lemma scrape_with_fallback_database f p tgt n preferred w :
  scrape_with_fallback p tgt n preferred (with_database f w)
  = on_database f (scrape_with_fallback p tgt n preferred w).
Proof.
  unfold scrape_with_fallback, bind, get_world. cbn -[fallback_loop].
  destruct (assoc_get (strategies (manager w)) p) as [reg|]; [|done].
  destruct (registry_keys reg); [done|].
  destruct (strategies_to_try _ _) as [|s0 todo]; [done|].
  apply fallback_loop_database.
Qed.

Lemma save_fetched_counted posts : ∀ n w,
  ∃ n', for_each save_fetched posts n w
        = (Return n', stored (persisted [] (scraped_posts (database w)) posts) w)
        ∧ n' = (n + (Z.of_nat (List.length (persisted [] (scraped_posts (database w)) posts))
                     - Z.of_nat (List.length (scraped_posts (database w)))))%Z.
Proof.
  induction posts as [|post posts IH]; intros n w; cbn [for_each persisted].
  - exists n. split; [|lia]. unfold ret, stored. by destruct w as [m [ps js] t net].
  - unfold bind at 1, save_fetched at 1, bind at 1, attempt, try_except, bind at 1.
    cbn [bool_decide orb andb]. rewrite bool_decide_eq_true_2 by done. cbn [orb andb].
    destruct (has_post (post_id post) (database w)) eqn:Hdup;
      pose proof Hdup as Hdup'; unfold has_post in Hdup'; rewrite Hdup'; cbn [negb].
    + rewrite save_post_stored by done. cbn. apply IH.
    + rewrite save_post_fresh by done. cbn.
      destruct (IH (n + 1)%Z
        (with_database (fun db => mkDb (scraped_posts db ++ [post]) (scraping_jobs db)) w))
        as (n' & -> & Hn).
      exists n'. split; [done|]. cbn in Hn. rewrite length_app in Hn. cbn in Hn. lia.
Qed.

Lemma scrape_with_fallback_keeps p tgt n preferred w :
  let w' := (scrape_with_fallback p tgt n preferred w).2 in
  manager w' = manager w ∧ database w' = database w ∧ utcnow w' = utcnow w.
Proof.
  cbn zeta.
  pose proof (scrape_with_fallback_run p tgt n preferred w) as Hrun. cbn zeta in Hrun.
  destruct (scrape_with_fallback p tgt n preferred w) as [[posts|e] w']; cbn [snd].
  - destruct Hrun as (_ & pre & s & post & _ & _ & _ & ->). done.
  - destruct e as [msg| | | | | |what p' last|]; try done.
    + by destruct Hrun as [_ ->].
    + by destruct Hrun as (_ & _ & _ & _ & _ & ->).
Qed.

Lemma scrape_with_fallback_raises_Exception p tgt n preferred w e :
  (scrape_with_fallback p tgt n preferred w).1 = Raise e → is_Exception e = true.
Proof.
  pose proof (scrape_with_fallback_run p tgt n preferred w) as Hrun. cbn zeta in Hrun.
  destruct (scrape_with_fallback p tgt n preferred w) as [[posts|e'] w']; cbn [fst];
    [done|]. intros [= ->]. by destruct e.
Qed.

(** The [finally] clause of [_run_job_with_fallback]. *)
Lemma remove_own_entry_run jid w :
  (w0 <- get_world ;;
   match active_jobs (manager w0) !! jid with
   | Some _ => del_active_job jid
   | None => ret tt
   end) w
  = (Return tt, with_manager (fun m => set_active_jobs (delete jid (active_jobs m)) m) w).
Proof.
  unfold bind, get_world, del_active_job, bind, get_world. cbn.
  destruct (active_jobs (manager w) !! jid) eqn:H; rewrite ?H; [done|].
  unfold ret, with_manager, set_active_jobs. rewrite delete_id by done.
  by destruct w as [[regs jobs] db t net].
Qed.

(** X12: [_run_job_with_fallback] on a stored job always returns, and
    when it does its own entry is out of the active-job table, the other
    entries and the strategy registry are as before, and the row of the job
    has [started_at] and [completed_at].  When [scrape_with_fallback] gave
    posts the row is completed and successful, the table of posts is the
    old one extended by the fetched posts whose id was not stored yet, and
    the post count of the row is the number of rows added.  When it raised
    the row is failed, with the message of the exception as its only error,
    and no post was stored. *)
Theorem run_job_with_fallback_settles (job : ScrapingJob)
    (preferred : option ScrapingStrategy) (row : ScrapingJobDB) (w : World) :
  scraping_jobs (database w) !! job_id job = Some row →
  let table := scraped_posts (database w) in
  ∃ w' row',
    _run_job_with_fallback job preferred w = (Return tt, w')
    ∧ active_jobs (manager w') = delete (job_id job) (active_jobs (manager w))
    ∧ strategies (manager w') = strategies (manager w)
    ∧ scraping_jobs (database w') !! job_id job = Some row'
    ∧ (∀ j, j ≠ job_id job →
         scraping_jobs (database w') !! j = scraping_jobs (database w) !! j)
    ∧ row_started_at row' = Some (utcnow w)
    ∧ row_completed_at row' = Some (utcnow w)
    ∧ match result (scrape_with_fallback (platform job) (target job) (max_posts job)
                      preferred) w with
      | Return posts =>
          row_status row' = "completed" ∧ row_success row' = true
          ∧ scraped_posts (database w') = persisted [] table posts
          ∧ row_posts_scraped row'
            = (Z.of_nat (List.length (scraped_posts (database w')))
               - Z.of_nat (List.length table))%Z
      | Raise e =>
          row_status row' = "failed" ∧ row_success row' = false
          ∧ row_errors row' = [exn_str e]
          ∧ scraped_posts (database w') = table
      end.
Proof.
  intros Hrow. cbn zeta.
  unfold _run_job_with_fallback, bind at 1, _run_job_with_fallback_enter, bind at 1,
    now, bind at 1, get_world. cbn [ret].
  unfold update_job_status at 1, modify.
  set (f := fun db : Database => match scraping_jobs db !! job_id job with
              | Some r => _ | None => db end).
  assert (Hf : scraping_jobs (f (database w)) !! job_id job
               = Some (apply_update "running"
                         (mkUpdate (Some (utcnow w)) None None None None None) row)).
  { subst f. cbn. rewrite Hrow. cbn. apply lookup_insert_eq. }
  assert (Hfo : ∀ j, j ≠ job_id job →
            scraping_jobs (f (database w)) !! j = scraping_jobs (database w) !! j).
  { intros j Hne. subst f. cbn. rewrite Hrow. cbn. by apply lookup_insert_ne. }
  assert (Hfp : scraped_posts (f (database w)) = scraped_posts (database w)).
  { subst f. cbn. by rewrite Hrow. }
  clearbody f.
  unfold _run_job_with_fallback_resume, try_finally, try_except, bind at 1.
  cbn [ret]. unfold bind at 1.
  rewrite scrape_with_fallback_database. unfold on_database, result.
  pose proof (scrape_with_fallback_keeps (platform job) (target job) (max_posts job)
                preferred w) as (Hm & Hd & Ht).
  pose proof (scrape_with_fallback_raises_Exception (platform job) (target job)
                (max_posts job) preferred w) as Hexc.
  destruct (scrape_with_fallback (platform job) (target job) (max_posts job) preferred w)
    as [[posts|e] [m1 d1 t1 n1]]; cbn [fst snd manager database utcnow] in *; subst m1 d1 t1.
  - unfold bind at 1.
    destruct (save_fetched_counted posts 0%Z
                (with_database f (mkWorld (manager w) (database w) (utcnow w) n1)))
      as (saved & -> & Hsaved).
    cbn [database with_database] in Hsaved. rewrite Hfp in Hsaved.
    unfold bind at 1, now, bind at 1, get_world. cbn [ret].
    rewrite update_job_status_run.
    rewrite remove_own_entry_run.
    unfold stored. cbn [manager database utcnow network with_database with_manager
                        scraped_posts scraping_jobs set_active_jobs active_jobs strategies].
    rewrite Hf, Hfp. eexists _, _. split; [reflexivity|].
    cbn [manager database utcnow network with_database with_manager
         scraped_posts scraping_jobs set_active_jobs active_jobs strategies].
    split; [done|]. split; [done|]. rewrite lookup_insert_eq. split; [reflexivity|].
    split; [intros j Hne; rewrite lookup_insert_ne by done; auto|].
    cbn. repeat split. lia.
  - rewrite (Hexc e eq_refl). unfold bind at 1, now, bind at 1, get_world. cbn [ret].
    rewrite update_job_status_run. rewrite remove_own_entry_run.
    cbn [manager database utcnow network with_database with_manager
         scraped_posts scraping_jobs set_active_jobs active_jobs strategies].
    rewrite Hf, Hfp. eexists _, _. split; [reflexivity|].
    cbn [manager database utcnow network with_database with_manager
         scraped_posts scraping_jobs set_active_jobs active_jobs strategies].
    split; [done|]. split; [done|]. rewrite lookup_insert_eq. split; [reflexivity|].
    split; [intros j Hne; rewrite lookup_insert_ne by done; auto|].
    cbn. repeat split.
Qed.

(** ** The try-order, again *)

(** X14: the try-order of [scrape_with_fallback] has no strategy twice;
    a strategy is in it exactly when it is available and is either the
    preferred one or one of WEB, FEED, API, so that BROWSER and ALTERNATIVE
    are tried only when preferred; and an available preferred strategy
    comes first. *)
Theorem try_order_sound_and_complete (preferred : option ScrapingStrategy)
    (available : list ScrapingStrategy) :
  let todo := strategies_to_try preferred available in
  NoDup todo
  ∧ (∀ s, s ∈ todo ↔
          s ∈ available ∧ (preferred = Some s ∨ s ∈ [WEB; FEED; API]))
  ∧ (∀ p, preferred = Some p → p ∈ available → head todo = Some p).
Proof.
  cbn zeta. rewrite strategies_to_try_eq. unfold try_order_spec.
  split; [|split].
  - destruct preferred as [p|]; [case_bool_decide|].
    + apply NoDup_cons. split.
      * rewrite list_elem_of_filter. tauto.
      * apply NoDup_filter, NoDup_filter. exact (bool_decide_unpack (NoDup [WEB; FEED; API]) I).
    + apply NoDup_filter. exact (bool_decide_unpack (NoDup [WEB; FEED; API]) I).
    + apply NoDup_filter. exact (bool_decide_unpack (NoDup [WEB; FEED; API]) I).
  - intros s. destruct preferred as [p|]; [case_bool_decide|].
    + rewrite elem_of_cons, !list_elem_of_filter. split.
      * intros [->|(Hne & Hin & Hdef)]; [split; [done|by left]|split; [done|by right]].
      * intros [Hin [[= ->]|Hdef]]; [by left|].
        destruct (decide (s = p)) as [->|Hne]; [by left|by right].
    + rewrite list_elem_of_filter. split.
      * intros [Hin Hdef]. split; [done|by right].
      * intros [Hin [[= ->]|Hdef]]; done.
    + rewrite list_elem_of_filter. split.
      * intros [Hin Hdef]. split; [done|by right].
      * intros [Hin [[=]|Hdef]]; done.
  - intros p -> Hp. by rewrite bool_decide_eq_true_2.
Qed.

(** ** scrape_search_with_fallback, in general *)

Lemma fold_append_if {A} (P : A → bool) (l acc : list A) :
  fold_left (fun acc x => if P x then acc ++ [x] else acc) l acc
  = acc ++ filter (fun x => P x = true) l.
Proof.
  revert acc. induction l as [|x l IH]; intros acc; cbn [fold_left].
  - by rewrite filter_nil, app_nil_r.
  - rewrite IH. rewrite filter_cons. destruct (P x) eqn:HP.
    + rewrite decide_True by done. by rewrite <- app_assoc.
    + rewrite decide_False by (by intros [=]). done.
Qed.

Lemma filter_all {A} (P : A → Prop) `{∀ x, Decision (P x)} (l : list A) :
  Forall P l → filter P l = l.
Proof.
  induction 1 as [|x l Hx Hl IH]; [done|].
  by rewrite filter_cons_True, IH.
Qed.

Lemma search_strategies_to_try_eq preferred capable :
  search_strategies_to_try preferred capable
  = match preferred with
    | Some p => if bool_decide (p ∈ capable)
                then p :: filter (fun s => s ≠ p) capable else capable
    | None => capable
    end.
Proof.
  unfold search_strategies_to_try. destruct preferred as [p|]; [|done].
  case_bool_decide; [|done].
  rewrite (fold_append_if (fun s => bool_decide (s ≠ p))). cbn. f_equal.
  apply list_filter_iff. intros s. by rewrite bool_decide_eq_true.
Qed.

(** X15: the try-order of a search is a reordering of the search-capable
    strategies, given without repetition: none is lost and none is added.
    A preferred strategy that is among them is moved to the front, the
    others keep their order; a preferred strategy that is not among them
    changes nothing. *)
Theorem search_try_order_is_a_reordering (preferred : option ScrapingStrategy)
    (capable : list ScrapingStrategy) :
  NoDup capable →
  search_strategies_to_try preferred capable ≡ₚ capable
  ∧ (∀ p, preferred = Some p → p ∈ capable →
       search_strategies_to_try preferred capable
       = p :: filter (fun s => s ≠ p) capable)
  ∧ (∀ p, preferred = Some p → p ∉ capable →
       search_strategies_to_try preferred capable = capable).
Proof.
  intros Hnd. rewrite search_strategies_to_try_eq.
  split; [|split].
  - destruct preferred as [p|]; [|done]. case_bool_decide as Hp; [|done].
    clear -Hnd Hp. induction capable as [|s capable IH]; [by apply elem_of_nil in Hp|].
    apply NoDup_cons in Hnd as [Hs Hnd]. rewrite filter_cons.
    destruct (decide (s = p)) as [->|Hne].
    + rewrite decide_False by (intros H; by apply H).
      f_equiv. rewrite filter_all; [done|].
      apply Forall_forall. intros x Hx ->. done.
    + rewrite decide_True by done.
      apply elem_of_cons in Hp as [->|Hp]; [done|].
      rewrite Permutation_swap. f_equiv. by apply IH.
  - intros p -> Hp. by rewrite bool_decide_eq_true_2.
  - intros p -> Hp. by rewrite bool_decide_eq_false_2.
Qed.

Lemma searched_nil p w : searched p [] w = w.
Proof. destruct w. unfold searched. cbn. by rewrite app_nil_r. Qed.

Lemma searched_app p l1 l2 w : searched p l2 (searched p l1 w) = searched p (l1 ++ l2) w.
Proof. unfold searched. cbn. by rewrite fmap_app, app_assoc. Qed.

Lemma attempt_search_run p q n s w reg scraper :
  assoc_get (strategies (manager w)) p = Some reg →
  registry_get reg s = Some scraper →
  attempt_search p q n s w
  = (Return (match failure (scrape_search scraper q n) with
             | Some e => inr e
             | None => inl (yielded (scrape_search scraper q n))
             end), searched p [s] w).
Proof.
  intros Hreg Hs.
  unfold attempt_search, try_except, get_scraper, bind, get_world. cbn.
  rewrite Hreg, Hs. cbn. unfold drain, bind, modify, ret, raise.
  destruct (failure _); done.
Qed.

Lemma search_loop_run p q n reg todo : ∀ last w,
  assoc_get (strategies (manager w)) p = Some reg →
  Forall (fun s => is_Some (registry_get reg s)) todo →
  ∃ tried, tried `prefix_of` todo ∧
  match search_loop p q n todo last w with
  | (Return posts, w') =>
      posts ≠ [] ∧ w' = searched p tried w ∧
      ∃ s scraper, s ∈ todo ∧ registry_get reg s = Some scraper
                   ∧ scrape_search scraper q n = mkStream posts None
  | (Raise e, w') =>
      (∃ last', e = AllStrategiesFailed "search" p last') ∧ w' = searched p tried w
  end.
Proof.
  induction todo as [|s rest IH]; intros last w Hreg Hall.
  - exists []. split; [done|]. cbn. split; [eauto|]. by rewrite searched_nil.
  - apply Forall_cons in Hall as [[scraper Hs] Hrest].
    cbn [search_loop]. unfold bind at 1.
    rewrite (attempt_search_run _ _ _ _ _ _ _ Hreg Hs).
    assert (Hreg' : assoc_get (strategies (manager (searched p [s] w))) p = Some reg)
      by done.
    destruct (failure (scrape_search scraper q n)) as [e|] eqn:Hf.
    + destruct (IH (Some e) (searched p [s] w) Hreg' Hrest) as (tried & Hpre & Hrun).
      exists (s :: tried). split; [by apply prefix_cons|].
      destruct (search_loop p q n rest (Some e) (searched p [s] w)) as [[posts|e'] w'].
      * destruct Hrun as (Hne & -> & s' & sc' & Hin & Hsc & Hposts).
        split; [done|]. split; [by rewrite searched_app|].
        exists s', sc'. split; [by right|done].
      * destruct Hrun as [Hl ->]. split; [done|]. by rewrite searched_app.
    + destruct (yielded (scrape_search scraper q n)) as [|post posts] eqn:Hy.
      * destruct (IH last (searched p [s] w) Hreg' Hrest) as (tried & Hpre & Hrun).
        exists (s :: tried). split; [by apply prefix_cons|].
        destruct (search_loop p q n rest last (searched p [s] w)) as [[posts|e'] w'].
        -- destruct Hrun as (Hne & -> & s' & sc' & Hin & Hsc & Hposts).
           split; [done|]. split; [by rewrite searched_app|].
           exists s', sc'. split; [by right|done].
        -- destruct Hrun as [Hl ->]. split; [done|]. by rewrite searched_app.
      * exists [s]. split; [by apply prefix_cons, prefix_nil|].
        cbn. split; [done|]. split; [done|].
        exists s, scraper. split; [by left|]. split; [done|].
        destruct (scrape_search scraper q n). cbn in *. by subst.
Qed.

Lemma search_try_order_capable preferred capable s :
  s ∈ search_strategies_to_try preferred capable → s ∈ capable.
Proof.
  rewrite search_strategies_to_try_eq. destruct preferred as [p|]; [|done].
  case_bool_decide; [|done].
  rewrite elem_of_cons, list_elem_of_filter. intros [->|[_ H']]; done.
Qed.

(** X16: [scrape_search_with_fallback] never returns an empty list and
    leaves manager and database as they were.  Every scraper it calls is
    registered for the platform and has a [scrape_search] attribute, and
    the posts it returns are those that such a scraper yielded without
    raising.  It raises a [ValueError] exactly when the platform has no
    registered scraper with the attribute, and otherwise only the exception
    for a search whose strategies all failed. *)
Theorem scrape_search_with_fallback_posts_or_raises
    (p : Platform) (q : string) (n : Z)
    (preferred : option ScrapingStrategy) (w : World) :
  let run := result (scrape_search_with_fallback p q n preferred) w in
  let w' := exec (scrape_search_with_fallback p q n preferred) w in
  run ≠ Return []
  ∧ manager w' = manager w
  ∧ database w' = database w
  ∧ (∃ tried, network w' = network w ++ (called_scrape_search p <$> tried)
       ∧ ∀ s, s ∈ tried →
           ∃ reg scraper, assoc_get (strategies (manager w)) p = Some reg
                          ∧ registry_get reg s = Some scraper
                          ∧ has_scrape_search scraper = true)
  ∧ (∀ posts, run = Return posts →
       ∃ s reg scraper,
         assoc_get (strategies (manager w)) p = Some reg
         ∧ registry_get reg s = Some scraper
         ∧ has_scrape_search scraper = true
         ∧ scrape_search scraper q n = mkStream posts None)
  ∧ ((∃ msg, run = Raise (ValueError msg))
     ↔ ∀ reg, assoc_get (strategies (manager w)) p = Some reg →
              search_capable_strategies reg = [])
  ∧ match run with
    | Return _ | Raise (ValueError _) | Raise (AllStrategiesFailed _ _ _) => True
    | Raise _ => False
    end.
Proof.
  cbn zeta. unfold result, exec, scrape_search_with_fallback, bind, get_world.
  destruct (assoc_get (strategies (manager w)) p) as [reg|] eqn:Hreg;
    cbn -[search_loop].
  2:{ split; [done|]. split; [done|]. split; [done|].
      split; [exists []; split; [by rewrite app_nil_r|]; intros s Hs; by apply elem_of_nil in Hs|].
      split; [done|]. split; [|done]. split; [done|eauto]. }
  destruct (search_capable_strategies reg) as [|c capable] eqn:Hcap;
    cbn -[search_loop].
  { split; [done|]. split; [done|]. split; [done|].
    split; [exists []; split; [by rewrite app_nil_r|]; intros s Hs; by apply elem_of_nil in Hs|].
    split; [done|]. split; [|done]. split; [|eauto]. intros _ reg' [= <-]. done. }
  assert (Hcapable : ∀ s, s ∈ search_strategies_to_try preferred (c :: capable) →
            ∃ scraper, registry_get reg s = Some scraper
                       ∧ has_scrape_search scraper = true).
  { intros s Hs. apply search_try_order_capable in Hs. rewrite <- Hcap in Hs.
    apply search_capable_iff in Hs as [_ Hs]. done. }
  assert (Hall : Forall (fun s => is_Some (registry_get reg s))
                   (search_strategies_to_try preferred (c :: capable))).
  { apply Forall_forall. intros s Hs. destruct (Hcapable s Hs) as (sc & -> & _). eauto. }
  destruct (search_loop_run p q n reg _ None w Hreg Hall) as (tried & Hpre & Hrun).
  assert (Htried : ∀ s, s ∈ tried →
            ∃ reg0 scraper, Some reg = Some reg0 ∧ registry_get reg0 s = Some scraper
                            ∧ has_scrape_search scraper = true).
  { intros s Hs. destruct (Hcapable s) as (sc & Hsc & Hh).
    - destruct Hpre as [k ->]. apply elem_of_app. by left.
    - by exists reg, sc. }
  destruct (search_loop p q n _ None w) as [[posts|e] w'].
  - destruct Hrun as (Hne & -> & s & sc & Hin & Hsc & Hposts).
    split; [by intros [= ->]|]. split; [done|]. split; [done|].
    split; [by exists tried|]. split.
    + intros posts' [= <-]. destruct (Hcapable s Hin) as (sc' & Hsc' & Hh).
      rewrite Hsc in Hsc'. injection Hsc' as <-. by exists s, reg, sc.
    + split; [|done]. split; [by intros [msg [=]]|].
      intros Hnone. specialize (Hnone reg eq_refl). congruence.
  - destruct Hrun as [[last' ->] ->].
    split; [done|]. split; [done|]. split; [done|].
    split; [by exists tried|]. split; [done|].
    split; [|done]. split; [by intros [msg [=]]|].
    intros Hnone. specialize (Hnone reg eq_refl). congruence.
Qed.

Lemma try_order_sound_and_complete_witness :
  head (strategies_to_try (Some BROWSER) [API; BROWSER; FEED]) = Some BROWSER
  ∧ ALTERNATIVE ∉ strategies_to_try (Some BROWSER) [API; ALTERNATIVE; FEED].
Proof.
  split.
  - destruct (try_order_sound_and_complete (Some BROWSER) [API; BROWSER; FEED])
      as (_ & _ & H).
    apply (H BROWSER eq_refl).
    exact (bool_decide_unpack (BROWSER ∈ [API; BROWSER; FEED]) I).
  - destruct (try_order_sound_and_complete (Some BROWSER) [API; ALTERNATIVE; FEED])
      as (_ & H & _).
    intros Hin. apply H in Hin as [_ [[=]|Hin]].
    exact (bool_decide_unpack (ALTERNATIVE ∉ [WEB; FEED; API]) I Hin).
Defined.

Lemma search_try_order_is_a_reordering_witness :
  search_strategies_to_try (Some FEED) [WEB; FEED] = [FEED; WEB]
  ∧ search_strategies_to_try (Some API) [WEB; FEED] = [WEB; FEED].
Proof.
  destruct (search_try_order_is_a_reordering (Some FEED) [WEB; FEED]) as (_ & H1 & _).
  { exact (bool_decide_unpack (NoDup [WEB; FEED]) I). }
  destruct (search_try_order_is_a_reordering (Some API) [WEB; FEED]) as (_ & _ & H2).
  { exact (bool_decide_unpack (NoDup [WEB; FEED]) I). }
  split.
  - rewrite (H1 FEED eq_refl); [reflexivity|].
    exact (bool_decide_unpack (FEED ∈ [WEB; FEED]) I).
  - apply (H2 API eq_refl).
    exact (bool_decide_unpack (API ∉ [WEB; FEED]) I).
Defined.

Lemma scrape_search_with_fallback_posts_or_raises_witness :
  (∃ msg, result (scrape_search_with_fallback REDDIT "rust" 10 None) world_api_only
          = Raise (ValueError msg))
  ∧ ∃ s reg scraper,
      assoc_get (strategies (manager world_web_feed)) REDDIT = Some reg
      ∧ registry_get reg s = Some scraper
      ∧ has_scrape_search scraper = true
      ∧ scrape_search scraper "rust" 10 = mkStream [post_rust; post_python] None.
Proof.
  split.
  - destruct (scrape_search_with_fallback_posts_or_raises REDDIT "rust" 10 None
                world_api_only) as (_ & _ & _ & _ & _ & H & _).
    apply H. intros reg [= <-]. reflexivity.
  - destruct (scrape_search_with_fallback_posts_or_raises REDDIT "rust" 10 None
                world_web_feed) as (_ & _ & _ & _ & H & _).
    apply H. reflexivity.
Defined.

(** ** _init_reddit_scrapers *)

Lemma assoc_get_set_eq {K V} `{EqDecision K} (l : list (K * V)) k v :
  assoc_get (assoc_set l k v) k = Some v.
Proof.
  induction l as [|[k' v'] l IH]; cbn.
  - by rewrite decide_True.
  - destruct (decide (k' = k)) as [->|Hne]; cbn.
    + by rewrite decide_True.
    + by rewrite decide_False.
Qed.

Lemma assoc_get_set_ne {K V} `{EqDecision K} (l : list (K * V)) k k' v :
  k ≠ k' → assoc_get (assoc_set l k v) k' = assoc_get l k'.
Proof.
  intros Hne. induction l as [|[k0 v0] l IH]; cbn.
  - by rewrite decide_False.
  - destruct (decide (k0 = k)) as [->|Hne0]; cbn.
    + by rewrite !decide_False.
    + destruct (decide (k0 = k')); done.
Qed.

Lemma assoc_set_set {K V} `{EqDecision K} (l : list (K * V)) k v v' :
  assoc_set (assoc_set l k v) k v' = assoc_set l k v'.
Proof.
  induction l as [|[k0 v0] l IH]; cbn.
  - by rewrite decide_True.
  - destruct (decide (k0 = k)) as [->|Hne0]; cbn.
    + by rewrite decide_True.
    + rewrite decide_False by done. by rewrite IH.
Qed.

Lemma register_scraper_run p s scraper reg w :
  assoc_get (strategies (manager w)) p = Some reg →
  register_scraper p s scraper w
  = (Return tt,
     with_manager (fun m =>
       set_strategies (assoc_set (strategies m) p (assoc_set reg s scraper)) m) w).
Proof. intros H. unfold register_scraper, bind, get_world. cbn. by rewrite H. Qed.

Lemma init_reddit_scrapers_run enable api web feed w :
  _init_reddit_scrapers enable api web feed w
  = (Return tt,
     with_manager (fun m =>
       set_strategies (assoc_set (strategies m) REDDIT
                         (built_registry enable api web feed)) m) w).
Proof.
  unfold _init_reddit_scrapers, built_registry, try_register.
  unfold bind at 1, modify.
  set (w0 := with_manager _ w).
  assert (H0 : assoc_get (strategies (manager w0)) REDDIT = Some []).
  { subst w0. cbn. apply assoc_get_set_eq. }
  assert (Hset : ∀ reg reg' s sc,
    (with_manager (fun m => set_strategies
        (assoc_set (strategies m) REDDIT (assoc_set reg s sc)) m)
       (with_manager (fun m => set_strategies (assoc_set (strategies m) REDDIT reg') m) w))
    = with_manager (fun m => set_strategies
        (assoc_set (strategies m) REDDIT (assoc_set reg s sc)) m) w).
  { intros. unfold with_manager, set_strategies. cbn. by rewrite assoc_set_set. }
  destruct enable, api as [a|], web as [b|], feed as [c|]; cbn [option_list fmap option_fmap option_map app];
    unfold bind; cbn [ret];
    repeat (erewrite register_scraper_run;
            [|first [exact H0 | cbn; apply assoc_get_set_eq]]);
    subst w0; rewrite ?Hset; cbn; try reflexivity.
Qed.

Lemma built_registry_try_order enable api web feed preferred :
  strategies_to_try preferred (registry_keys (built_registry enable api web feed)) = [] →
  built_registry enable api web feed = [].
Proof.
  destruct enable, api, web, feed, preferred as [[]|]; vm_compute; congruence.
Qed.

(** X17: [_init_reddit_scrapers] never raises and leaves for Reddit a
    registry of exactly the scrapers that could be built, in the order API,
    WEB, FEED, with no API scraper when API scrapers are disabled; the
    registries of other platforms, the active-job table and the database are
    not touched.  After it, [scrape_with_fallback] for Reddit raises a
    [ValueError] exactly when no scraper could be built. *)
Theorem init_reddit_scrapers_registers_what_was_built
    (enable_api_scrapers : bool) (reddit_api reddit_web reddit_feed : option Scraper)
    (w : World) :
  let init := _init_reddit_scrapers enable_api_scrapers reddit_api reddit_web reddit_feed in
  let built := built_registry enable_api_scrapers reddit_api reddit_web reddit_feed in
  let w' := exec init w in
  result init w = Return tt
  ∧ assoc_get (strategies (manager w')) REDDIT = Some built
  ∧ (∀ p, p ≠ REDDIT →
       assoc_get (strategies (manager w')) p = assoc_get (strategies (manager w)) p)
  ∧ active_jobs (manager w') = active_jobs (manager w)
  ∧ database w' = database w
  ∧ registry_keys built `sublist_of` [API; WEB; FEED]
  ∧ (enable_api_scrapers = false → registry_get built API = None)
  ∧ ∀ tgt n preferred,
      (∃ msg, result (scrape_with_fallback REDDIT tgt n preferred) w'
              = Raise (ValueError msg))
      ↔ built = [].
Proof.
  cbn zeta. unfold result, exec. rewrite init_reddit_scrapers_run. cbn [fst snd].
  split; [done|]. split; [cbn; apply assoc_get_set_eq|].
  split; [intros p Hp; cbn; by apply assoc_get_set_ne|].
  split; [done|]. split; [done|]. split.
  { destruct enable_api_scrapers, reddit_api, reddit_web, reddit_feed; cbn;
      repeat first [apply sublist_nil | apply sublist_skip | apply sublist_cons]. }
  split.
  { intros ->. by destruct reddit_api, reddit_web, reddit_feed. }
  intros tgt n preferred.
  set (w' := with_manager _ w).
  assert (Hreg : assoc_get (strategies (manager w')) REDDIT
                 = Some (built_registry enable_api_scrapers reddit_api reddit_web reddit_feed)).
  { subst w'. cbn. apply assoc_get_set_eq. }
  split.
  - intros [msg Hmsg].
    pose proof (scrape_with_fallback_run REDDIT tgt n preferred w') as Hrun.
    cbn zeta in Hrun.
    destruct (scrape_with_fallback REDDIT tgt n preferred w') as [[posts|e] w''];
      cbn in Hmsg; [done|]. injection Hmsg as ->.
    destruct Hrun as [Htodo _]. unfold get_available_strategies in Htodo.
    rewrite Hreg in Htodo. by apply built_registry_try_order in Htodo.
  - intros Hnil. exists "No working scrapers available".
    unfold scrape_with_fallback, bind, get_world. cbv beta.
    rewrite Hreg, Hnil. reflexivity.
Qed.

Lemma init_reddit_scrapers_registers_what_was_built_witness :
  registry_get (built_registry false (Some web_ok) (Some web_ok) None) API = None
  ∧ ∃ msg, result (scrape_with_fallback REDDIT "rust" 10 None)
             (exec (_init_reddit_scrapers true None None None) world_reddit)
           = Raise (ValueError msg).
Proof.
  split.
  - destruct (init_reddit_scrapers_registers_what_was_built false (Some web_ok)
                (Some web_ok) None world_reddit) as (_ & _ & _ & _ & _ & _ & H & _).
    apply H. reflexivity.
  - destruct (init_reddit_scrapers_registers_what_was_built true None None None
                world_reddit) as (_ & _ & _ & _ & _ & _ & _ & H).
    apply H. reflexivity.
Defined.

(** ** cleanup_old_jobs *)

Lemma cleanup_old_jobs_run days w :
  cleanup_old_jobs days w
  = if (Z.abs days <=? 999999999)%Z then
      let cutoff_date := (utcnow w - days * 86400)%Z in
      if (datetime_min <=? cutoff_date)%Z && (cutoff_date <=? datetime_max)%Z then
        (Return tt,
         with_database (fun db =>
           mkDb (scraped_posts db)
                (filter (fun kv => is_old_job cutoff_date kv.2 = false)
                        (scraping_jobs db))) w)
      else (Raise (OverflowError "date value out of range"), w)
    else (Raise (OverflowError "days; must have magnitude <= 999999999"), w).
Proof.
  unfold cleanup_old_jobs, bind at 1, now, bind at 1, get_world. cbn [ret].
  unfold bind at 1, timedelta_days.
  destruct (Z.abs days <=? 999999999)%Z; [|done]. cbn [ret].
  unfold bind at 1, datetime_sub. cbn zeta.
  by destruct (_ && _).
Qed.

(** X18: with a number of days that [timedelta] takes (at most 999999999
    in magnitude) and a cut-off date that is a [datetime] (between the years
    1 and 9999), [cleanup_old_jobs] deletes exactly the jobs that are
    completed, failed or cancelled and whose [completed_at] is before the
    cut-off of [days] days ago: a job that is pending or running, or has no
    [completed_at], or finished later, keeps its row unchanged, and no row is
    added.  With other arguments it raises [OverflowError] and deletes
    nothing.  Posts and the manager, its active-job table included, are
    never touched. *)
Theorem cleanup_old_jobs_deletes_only_old_terminal_jobs (days : Z) (w : World) :
  let w' := exec (cleanup_old_jobs days) w in
  let cutoff_date := (utcnow w - days * 86400)%Z in
  (cutoff_in_range days w →
     result (cleanup_old_jobs days) w = Return tt
     ∧ ∀ jid row,
         scraping_jobs (database w') !! jid = Some row
         ↔ scraping_jobs (database w) !! jid = Some row
           ∧ ¬ (row_status row ∈ ["completed"; "failed"; "cancelled"]
                ∧ ∃ t, row_completed_at row = Some t ∧ (t < cutoff_date)%Z))
  ∧ (¬ cutoff_in_range days w →
     ∃ msg, cleanup_old_jobs days w = (Raise (OverflowError msg), w))
  ∧ scraped_posts (database w') = scraped_posts (database w)
  ∧ manager w' = manager w.
Proof.
  cbn zeta. unfold result, exec, cutoff_in_range. rewrite cleanup_old_jobs_run. cbn zeta.
  destruct (Z.leb_spec (Z.abs days) 999999999) as [Hd|Hd].
  2:{ split; [intros [? _]; lia|]. split; [by eexists|done]. }
  destruct (Z.leb_spec datetime_min (utcnow w - days * 86400)) as [Hlo|Hlo]; cbn [andb].
  2:{ split; [intros [_ [? _]]; lia|]. split; [by eexists|done]. }
  destruct (Z.leb_spec (utcnow w - days * 86400) datetime_max) as [Hhi|Hhi].
  2:{ split; [intros [_ [_ ?]]; lia|]. split; [by eexists|done]. }
  split; [|split; [intros Hno; exfalso; apply Hno; lia|done]].
  intros _. split; [done|]. cbn [snd].
  intros jid row. cbn. rewrite map_lookup_filter_Some. cbn.
  split; intros [Hrow Hold]; (split; [done|]).
  - intros [Hst (t & Ht & Hlt)]. unfold is_old_job in Hold. rewrite Ht in Hold.
    rewrite (proj2 (Z.ltb_lt _ _) Hlt), bool_decide_eq_true_2 in Hold; done.
  - unfold is_old_job. destruct (row_completed_at row) as [t|] eqn:Ht; [|done].
    destruct (Z.ltb_spec t (utcnow w - days * 86400)) as [Hlt|Hge]; [|done].
    cbn. apply bool_decide_eq_false. intros Hst. apply Hold. eauto.
Qed.

(** ** The convenience methods *)

Lemma create_job_run uuid4 p tgt n comments kws w :
  scraping_jobs (database w) !! uuid4 = None →
  create_job uuid4 p tgt n comments kws w
  = (Return uuid4, created uuid4 p tgt n comments kws w).
Proof. intros H. unfold create_job, save_job, bind, get_world. cbn. by rewrite H. Qed.

(** What the three convenience methods come to: the job is stored, and
    the [start_job] that follows raises. *)
Lemma create_then_start_run uuid4 p tgt n comments kws w :
  scraping_jobs (database w) !! uuid4 = None →
  active_jobs (manager w) !! uuid4 = None →
  (jid <- create_job uuid4 p tgt n comments kws ;; start_job jid ;;; ret jid) w
  = (Raise (AttributeError "'EnhancedScraperManager' object has no attribute 'scrapers'"),
     created uuid4 p tgt n comments kws w).
Proof.
  intros Hfresh Hidle. unfold bind at 1. rewrite create_job_run by done.
  unfold bind at 1.
  erewrite (start_job_stored uuid4 _ p); [done|done|apply lookup_insert_eq|done].
Qed.


Lemma cleanup_old_jobs_deletes_only_old_terminal_jobs_witness :
  (∃ row, scraping_jobs (database (exec (cleanup_old_jobs 7) world_job_created)) !! "job-1"
          = Some row)
  ∧ ∃ msg, cleanup_old_jobs 1000000000 world_job_created
           = (Raise (OverflowError msg), world_job_created).
Proof.
  destruct (cleanup_old_jobs_deletes_only_old_terminal_jobs 7 world_job_created)
    as (H & _).
  destruct (cleanup_old_jobs_deletes_only_old_terminal_jobs 1000000000 world_job_created)
    as (_ & H' & _).
  split.
  - destruct H as [_ H].
    { vm_compute. repeat split; discriminate. }
    eexists. apply H. split; [reflexivity|].
    intros [_ (t & Ht & _)]. vm_compute in Ht. discriminate Ht.
  - apply H'. intros [Hd _]. vm_compute in Hd. by apply Hd.
Defined.


(** ** RedditFeedScraper.scrape_posts *)

Lemma length_omap_le {A B} (f : A → option B) (l : list A) :
  (List.length (omap f l) ≤ List.length l)%nat.
Proof.
  induction l as [|a l IH]; cbn; [done|]. destruct (f a); cbn; lia.
Qed.

(** X20: the loop of [RedditFeedScraper.scrape_posts] over the entries of
    a feed converts the entries that the slice [entries[:max_posts]] keeps,
    in order, and skips those that cannot be converted.  With a [max_posts]
    that is not negative the slice keeps the first [max_posts] entries, all
    of them when there are fewer.  With a negative [max_posts] the slice
    leaves out the last [- max_posts] entries, all of them when there are
    fewer.  So the posts yielded are a prefix of what would be yielded
    without a limit, at most [max_posts] posts when [max_posts] is not
    negative, and all posts when [max_posts] is at least the number of
    entries. *)
Theorem feed_posts_within_limit {E} (convert : E → option ScrapedPost) (n : Z)
    (entries : list E) :
  feed_posts convert n entries `prefix_of` omap convert entries
  ∧ (List.length (feed_posts convert n entries) ≤ List.length entries)%nat
  ∧ ((0 ≤ n)%Z →
     feed_posts convert n entries = omap convert (take (Z.to_nat n) entries)
     ∧ (∃ first rest, entries = first ++ rest
          ∧ List.length first = Nat.min (Z.to_nat n) (List.length entries)
          ∧ feed_posts convert n entries = omap convert first)
     ∧ (List.length (feed_posts convert n entries) ≤ Z.to_nat n)%nat)
  ∧ ((n < 0)%Z →
     feed_posts convert n entries
     = omap convert (take (List.length entries - Z.to_nat (- n)) entries)
     ∧ (∃ first left_out, entries = first ++ left_out
          ∧ List.length left_out = Nat.min (Z.to_nat (- n)) (List.length entries)
          ∧ feed_posts convert n entries = omap convert first)
     ∧ (List.length (feed_posts convert n entries)
        ≤ List.length entries - Z.to_nat (- n))%nat)
  ∧ ((Z.of_nat (List.length entries) ≤ n)%Z →
     feed_posts convert n entries = omap convert entries).
Proof.
  unfold feed_posts, slice_to.
  assert (Hpre : ∀ k, omap convert (take k entries) `prefix_of` omap convert entries).
  { intros k. exists (omap convert (drop k entries)).
    by rewrite <- omap_app, take_drop. }
  assert (Hlen : ∀ k, (List.length (omap convert (take k entries)) ≤ k)%nat).
  { intros k. etrans; [apply length_omap_le|]. rewrite length_take. lia. }
  assert (Hlen' : ∀ k, (List.length (omap convert (take k entries))
                        ≤ List.length entries)%nat).
  { intros k. etrans; [apply length_omap_le|]. rewrite length_take. lia. }
  destruct (Z.leb_spec 0 n) as [Hn|Hn].
  - split; [done|]. split; [done|]. split; [|split; [lia|]].
    + intros _. split; [done|]. split; [|done].
      exists (take (Z.to_nat n) entries), (drop (Z.to_nat n) entries).
      split; [by rewrite take_drop|]. split; [|done]. rewrite length_take. lia.
    + intros Hall. by rewrite take_ge by lia.
  - assert (Hk : Z.to_nat (Z.of_nat (List.length entries) + n)
                 = (List.length entries - Z.to_nat (- n))%nat) by lia.
    rewrite Hk.
    split; [done|]. split; [done|]. split; [lia|]. split; [|lia].
    intros _. split; [done|]. split; [|apply Hlen].
    exists (take (List.length entries - Z.to_nat (- n)) entries),
           (drop (List.length entries - Z.to_nat (- n)) entries).
    split; [by rewrite take_drop|]. split; [|done]. rewrite length_drop. lia.
Qed.

(** ** BaseScraper.health_check *)

(** X21: [health_check] answers true exactly when one of the first three
    exchanges of the probe succeeds and every exchange before it failed with
    an exception that the retry wrapper retries. *)
Theorem health_check_iff (exchanges : nat → Exchange) :
  health_check exchanges = true
  ↔ ∃ k body, (1 ≤ k ≤ 3)%nat
      ∧ make_request_once (exchanges k) = inl body
      ∧ ∀ j, (1 ≤ j < k)%nat →
          ∃ e, make_request_once (exchanges j) = inr e
               ∧ retry_if_exception_type e = true.
Proof.
  unfold health_check, _make_request. cbn [retrying].
  cbn [stop_after_attempt Nat.leb].
  destruct (make_request_once (exchanges 1%nat)) as [b1|e1] eqn:H1.
  { cbn. split; [intros _|done]. exists 1%nat, b1. split; [lia|]. split; [done|].
    intros j Hj. lia. }
  destruct (retry_if_exception_type e1) eqn:R1; cbn [negb].
  2:{ cbn. split; [done|]. intros (k & body & Hk & Hok & Hprev).
      destruct (decide (k = 1%nat)) as [->|Hne]; [congruence|].
      destruct (Hprev 1%nat) as (e & He & Hr); [lia|]. congruence. }
  destruct (make_request_once (exchanges 2%nat)) as [b2|e2] eqn:H2.
  { cbn. split; [intros _|done]. exists 2%nat, b2. split; [lia|]. split; [done|].
    intros j Hj. assert (j = 1%nat) as -> by lia. eauto. }
  destruct (retry_if_exception_type e2) eqn:R2; cbn [negb].
  2:{ cbn. split; [done|]. intros (k & body & Hk & Hok & Hprev).
      destruct (decide (k = 1%nat)) as [->|Hne1]; [congruence|].
      destruct (decide (k = 2%nat)) as [->|Hne2]; [congruence|].
      destruct (Hprev 2%nat) as (e & He & Hr); [lia|]. congruence. }
  destruct (make_request_once (exchanges 3%nat)) as [b3|e3] eqn:H3.
  { cbn. split; [intros _|done]. exists 3%nat, b3. split; [lia|]. split; [done|].
    intros j Hj. assert (j = 1 ∨ j = 2)%nat as [-> | ->] by lia; eauto. }
  assert (Hno : ¬ ∃ k body, (1 ≤ k ≤ 3)%nat
      ∧ make_request_once (exchanges k) = inl body
      ∧ ∀ j, (1 ≤ j < k)%nat →
          ∃ e, make_request_once (exchanges j) = inr e
               ∧ retry_if_exception_type e = true).
  { intros (k & body & Hk & Hok & _).
    assert (k = 1 ∨ k = 2 ∨ k = 3)%nat as [-> | [-> | ->]] by lia; congruence. }
  destruct (retry_if_exception_type e3); cbn; split; done.
Qed.

Lemma feed_posts_within_limit_witness :
  feed_posts convert_entry 2 ["a"; "bad"; "c"; "d"] = omap convert_entry ["a"; "bad"]
  ∧ feed_posts convert_entry (-1) ["a"; "bad"; "c"; "d"] = omap convert_entry ["a"; "bad"; "c"]
  ∧ feed_posts convert_entry 9 ["a"; "bad"; "c"] = omap convert_entry ["a"; "bad"; "c"].
Proof.
  split; [|split].
  - destruct (feed_posts_within_limit convert_entry 2 ["a"; "bad"; "c"; "d"])
      as (_ & _ & H & _).
    destruct H as [H _]; [lia|]. exact H.
  - destruct (feed_posts_within_limit convert_entry (-1) ["a"; "bad"; "c"; "d"])
      as (_ & _ & _ & H & _).
    destruct H as [H _]; [lia|]. exact H.
  - destruct (feed_posts_within_limit convert_entry 9 ["a"; "bad"; "c"])
      as (_ & _ & _ & _ & H).
    apply H. cbn. lia.
Defined.

Lemma health_check_iff_witness : health_check flaky_network = true.
Proof.
  apply (health_check_iff flaky_network). exists 3%nat, "ok".
  split; [lia|]. split; [reflexivity|].
  intros j Hj. exists TimeoutError.
  assert (j = 1 ∨ j = 2)%nat as [-> | ->] by lia; split; reflexivity.
Defined.



(** ** Jobs without a stored row *)

(** X23: for a job that has no row in the jobs table, say because
    [cleanup_old_jobs] deleted it, nothing is recorded anywhere:
    [update_job_status] changes nothing, [run_scraping_job] leaves the jobs
    table as it is, creating no row, and [stop_job] on its task in the
    active-job table returns true without touching the database. *)
Theorem job_without_row_records_nothing (scraper : Scraper) (job : ScrapingJob)
    (w : World) :
  scraping_jobs (database w) !! job_id job = None →
  scraping_jobs (database (exec (run_scraping_job scraper job) w))
    = scraping_jobs (database w)
  ∧ (∀ st u, update_job_status (job_id job) st u w = (Return tt, w))
  ∧ (∀ t, active_jobs (manager w) !! job_id job = Some t →
          coro t = run_scraping_job_coro scraper job →
          result (stop_job (job_id job)) w = Return true
          ∧ database (exec (stop_job (job_id job)) w) = database w).
Proof.
  intros Hrow. split; [|split].
  - unfold exec, run_scraping_job, bind at 1, run_scraping_job_enter, bind at 1, now,
      bind at 1, get_world. cbn [ret].
    rewrite update_job_status_run. rewrite Hrow.
    set (w0 := mkWorld _ _ _ _).
    unfold run_scraping_job_resume, bind at 1. cbn [ret]. unfold bind at 1.
    destruct (process_posts_accounted scraper job
                (yielded (scrape_posts scraper (target job) (max_posts job)))
                (mkResult 0 0 [] false) w0)
      as (r1 & w1 & -> & (added & Ha & Hl & Hp & Hc & Hj & Hm & Ht & Hn & Hs) & Hnc).
    unfold bind at 1, now, bind at 1, get_world. cbn [ret].
    assert (Hrow1 : scraping_jobs (database w1) !! job_id job = None).
    { rewrite Hj. subst w0. done. }
    destruct (failure _); unfold bind at 1; rewrite update_job_status_run, Hrow1;
      cbn [ret snd database]; rewrite Hj; subst w0; done.
  - intros st u. rewrite update_job_status_run, Hrow. by destruct w.
  - intros [c st] Ht Hc. cbn in Hc. subst c.
    unfold result, exec. rewrite (stop_job_legacy _ _ _ _ _ Ht). cbn.
    unfold mark_cancelled. by rewrite Hrow.
Qed.

(** ** The active-job table over the life of a manager *)

Lemma keeps_manager_with_call c : keeps_manager (modify (with_call c)).
Proof. done. Qed.

Lemma keeps_manager_get_scraper p s : keeps_manager (get_scraper p s).
Proof.
  unfold get_scraper. apply keeps_manager_bind; [auto with frame|intros w].
  destruct (assoc_get _ _) as [reg|]; [|auto with frame].
  destruct (registry_get reg s); auto with frame.
Qed.

Lemma keeps_manager_drain c gen : keeps_manager (drain c gen).
Proof.
  unfold drain. apply keeps_manager_bind; [apply keeps_manager_with_call|intros _].
  destruct (failure gen); auto with frame.
Qed.

Lemma keeps_manager_search_loop p q n todo :
  ∀ last, keeps_manager (search_loop p q n todo last).
Proof.
  induction todo as [|s rest IH]; intros last; cbn [search_loop]; [auto with frame|].
  apply keeps_manager_bind.
  - unfold attempt_search. apply keeps_manager_try_except; [|auto with frame].
    apply keeps_manager_bind; [apply keeps_manager_get_scraper|intros scraper].
    apply keeps_manager_bind; [apply keeps_manager_drain|auto with frame].
  - intros [[|post posts]|e]; auto with frame.
Qed.

Lemma keeps_manager_scrape_search_with_fallback p q n preferred :
  keeps_manager (scrape_search_with_fallback p q n preferred).
Proof.
  unfold scrape_search_with_fallback.
  apply keeps_manager_bind; [auto with frame|intros w].
  destruct (assoc_get _ _) as [reg|]; [|auto with frame].
  destruct (search_capable_strategies reg); [auto with frame|].
  apply keeps_manager_search_loop.
Qed.

Lemma keeps_manager_scrape_with_fallback p tgt n preferred :
  keeps_manager (scrape_with_fallback p tgt n preferred).
Proof. intros w. apply scrape_with_fallback_keeps. Qed.

Lemma keeps_manager_create_job uuid4 p tgt n comments kws :
  keeps_manager (create_job uuid4 p tgt n comments kws).
Proof. intros w. apply create_job_frame. Qed.

Lemma keeps_manager_start_job jid : keeps_manager (start_job jid).
Proof. intros w. pose proof (start_job_keeps_world jid w) as H. unfold exec in H. by rewrite H. Qed.

Lemma keeps_manager_get_job_status jid : keeps_manager (get_job_status jid).
Proof.
  unfold get_job_status, db_get_job_status.
  apply keeps_manager_bind; [auto with frame|intros [row|]]; auto with frame.
Qed.

Lemma keeps_manager_cleanup_old_jobs days : keeps_manager (cleanup_old_jobs days).
Proof.
  intros w. rewrite cleanup_old_jobs_run. cbn zeta.
  destruct (_ <=? _)%Z; [|done]. by destruct (_ && _).
Qed.

Lemma keeps_manager_run_scraping_job scraper job :
  keeps_manager (run_scraping_job scraper job).
Proof.
  unfold run_scraping_job. apply keeps_manager_bind.
  - unfold run_scraping_job_enter. auto with frame.
  - intros _. apply keeps_manager_run_scraping_job_resume.
Qed.

Lemma keeps_manager_save_fetched saved post : keeps_manager (save_fetched saved post).
Proof.
  unfold save_fetched. apply keeps_manager_bind.
  - apply keeps_manager_attempt. auto with frame.
  - intros [?|?]; auto with frame.
Qed.

(** Called on its own or run by a task, [_run_job_with_fallback] leaves the
    active-job table without an entry for its job. *)
Lemma run_job_with_fallback_table job preferred w :
  active_jobs (manager (exec (_run_job_with_fallback job preferred) w))
  = delete (job_id job) (active_jobs (manager w)).
Proof.
  unfold exec, _run_job_with_fallback, bind at 1.
  assert (Henter : keeps_manager (_run_job_with_fallback_enter job)).
  { unfold _run_job_with_fallback_enter. auto with frame. }
  specialize (Henter w).
  destruct (_run_job_with_fallback_enter job w) as [[[]|e] w0] eqn:He; cbn [snd] in *.
  2:{ exfalso. unfold _run_job_with_fallback_enter, bind, now, get_world in He.
      cbn in He. discriminate He. }
  unfold _run_job_with_fallback_resume, try_finally.
  match goal with |- context [try_except ?m ?h w0] =>
    assert (Hbody : keeps_manager (try_except m h)) end.
  { apply keeps_manager_try_except.
    - apply keeps_manager_bind; [auto with frame|intros _].
      apply keeps_manager_bind; [apply keeps_manager_scrape_with_fallback|intros posts].
      apply keeps_manager_bind;
        [apply keeps_manager_for_each; apply keeps_manager_save_fetched|intros saved].
      auto with frame.
    - intros e. auto with frame. }
  specialize (Hbody w0).
  destruct (try_except _ _ w0) as [r w1]; cbn [snd] in Hbody.
  rewrite remove_own_entry_run. cbn. by rewrite Hbody, Henter.
Qed.

Lemma loop_enter_idle jid w :
  active_jobs (manager w) !! jid = None → loop_enter jid w = (Return tt, w).
Proof. intros H. unfold loop_enter, bind, get_world. cbn. by rewrite H. Qed.

Lemma loop_resume_idle jid w :
  active_jobs (manager w) !! jid = None → loop_resume jid w = (Return tt, w).
Proof. intros H. unfold loop_resume, bind, get_world. cbn. by rewrite H. Qed.

(** No call and no step puts a task into an empty active-job table. *)
Lemma after_table_empty c w :
  active_jobs (manager w) = ∅ → active_jobs (manager (after c w)) = ∅.
Proof.
  intros Hempty.
  assert (Hkeep : ∀ A (m : Py A), keeps_manager m → active_jobs (manager (exec m w)) = ∅).
  { intros A m Hm. unfold exec. by rewrite Hm. }
  assert (Hpair : ∀ (create : Py string),
            keeps_manager create →
            keeps_manager (jid <- create ;; start_job jid ;;; ret jid)).
  { intros create Hc. apply keeps_manager_bind; [done|intros jid].
    apply keeps_manager_bind; [apply keeps_manager_start_job|auto with frame]. }
  destruct c; cbn [after].
  - unfold exec. rewrite init_reddit_scrapers_run. done.
  - apply Hkeep, keeps_manager_scrape_with_fallback.
  - apply Hkeep, keeps_manager_scrape_search_with_fallback.
  - apply Hkeep, keeps_manager_create_job.
  - apply Hkeep, keeps_manager_start_job.
  - unfold exec. rewrite stop_job_inactive; [done|]. by rewrite Hempty.
  - apply Hkeep, keeps_manager_get_job_status.
  - apply Hkeep. unfold scrape_reddit_subreddit. apply Hpair, keeps_manager_create_job.
  - apply Hkeep. unfold scrape_twitter_user. apply Hpair, keeps_manager_create_job.
  - apply Hkeep. unfold search_twitter. apply Hpair, keeps_manager_create_job.
  - apply Hkeep, keeps_manager_cleanup_old_jobs.
  - apply Hkeep, keeps_manager_run_scraping_job.
  - rewrite run_job_with_fallback_table, Hempty. apply delete_empty.
  - unfold exec. rewrite loop_enter_idle; [done|]. by rewrite Hempty.
  - unfold exec. rewrite loop_resume_idle; [done|]. by rewrite Hempty.
  - done.
Qed.

Lemma history_table_empty cs : ∀ w,
  active_jobs (manager w) = ∅ → active_jobs (manager (history cs w)) = ∅.
Proof.
  induction cs as [|c cs IH]; intros w Hempty; [done|].
  cbn. apply IH. by apply after_table_empty.
Qed.



(** ** The keyword filter of run_scraping_job *)

Lemma stored_append post added w :
  stored ((scraped_posts (database w) ++ [post]) ++ added)
         (with_database (fun db => mkDb (scraped_posts db ++ [post]) (scraping_jobs db)) w)
  = stored (scraped_posts (database w) ++ post :: added) w.
Proof. unfold stored. cbn. by rewrite <- app_assoc. Qed.

(** The loop over the fetched posts of a job with keywords and without
    comments: the posts that are kept are stored and counted, each post
    that matches and is not kept leaves one error, and the other posts
    leave nothing. *)
Lemma process_posts_kept sc job posts : ∀ r w,
  keywords job ≠ [] →
  include_comments job = false →
  ∃ r' errs,
    for_each (process_post sc job) posts r w
    = (Return r',
       stored (scraped_posts (database w)
               ++ kept (keywords job) (scraped_posts (database w)) posts) w)
    ∧ posts_scraped r'
      = (posts_scraped r
         + Z.of_nat (List.length (kept (keywords job) (scraped_posts (database w)) posts)))%Z
    ∧ comments_scraped r' = comments_scraped r
    ∧ errors r' = errors r ++ errs
    ∧ (List.length errs
       + List.length (kept (keywords job) (scraped_posts (database w)) posts)
       = List.length
           (filter (fun post => _matches_keywords (post_content post) (keywords job) = true)
                   posts))%nat.
Proof.
  induction posts as [|post posts IH]; intros r w Hkw Hnc; cbn [for_each kept].
  - exists r, []. rewrite !app_nil_r. split; [|split; [cbn; lia|done]].
    unfold ret, stored. by destruct w as [m [ps js] t net].
  - rewrite (bool_decide_eq_false_2 (keywords job = [])) by done. cbn [orb].
    unfold bind. rewrite filter_cons.
    destruct (_matches_keywords (post_content post) (keywords job)) eqn:Hm; cbn [andb].
    + destruct (has_post (post_id post) (database w)) eqn:Hdup;
        pose proof Hdup as Hdup'; unfold has_post in Hdup'; rewrite Hdup'; cbn [negb].
      * rewrite process_post_duplicate by auto.
        destruct (IH (add_error r ("Post processing error: "
                        +:+ exn_str (IntegrityError (post_id post)))) w Hkw Hnc)
          as (r' & errs & -> & Hp & Hc & He & Hl).
        exists r', (("Post processing error: "
                     +:+ exn_str (IntegrityError (post_id post))) :: errs).
        split; [done|]. split; [done|]. split; [done|]. split.
        -- rewrite He. cbn. by rewrite <- app_assoc.
        -- rewrite decide_True by done. cbn. lia.
      * rewrite process_post_keeps by auto.
        destruct (IH (count_post r)
          (with_database (fun db => mkDb (scraped_posts db ++ [post]) (scraping_jobs db)) w)
          Hkw Hnc) as (r' & errs & -> & Hp & Hc & He & Hl).
        cbn [database with_database scraped_posts] in *.
        exists r', errs. rewrite stored_append.
        split; [done|]. split; [cbn in Hp |- *; lia|]. split; [done|]. split; [done|].
        rewrite decide_True by done. cbn. lia.
    + rewrite process_post_discards by done.
      destruct (IH r w Hkw Hnc) as (r' & errs & -> & Hp & Hc & He & Hl).
      exists r', errs. split; [done|]. split; [done|]. split; [done|]. split; [done|].
      rewrite decide_False by (by intros ?). done.
Qed.

Lemma kept_spec kws posts : ∀ table,
  kws ≠ [] →
  (∀ post, post ∈ kept kws table posts →
     post ∈ posts ∧ _matches_keywords (post_content post) kws = true
     ∧ post_id post ∉ post_id <$> table)
  ∧ (∀ post, post ∈ posts → _matches_keywords (post_content post) kws = true →
       post_id post ∈ post_id <$> table ++ kept kws table posts).
Proof.
  induction posts as [|p posts IH]; intros table Hkw; cbn [kept].
  - split; intros post H; by apply elem_of_nil in H.
  - rewrite (bool_decide_eq_false_2 (kws = [])) by done. cbn [orb].
    destruct (_matches_keywords (post_content p) kws) eqn:Hm; cbn [andb].
    + destruct (bool_decide (post_id p ∈ post_id <$> table)) eqn:Hdup; cbn [negb].
      * apply bool_decide_eq_true in Hdup.
        destruct (IH table Hkw) as [IH1 IH2]. split.
        -- intros post Hin. destruct (IH1 post Hin) as (? & ? & ?).
           split; [by apply list_elem_of_further|done].
        -- intros post Hin Hpm. apply elem_of_cons in Hin as [->|Hin]; [|by apply IH2].
           rewrite fmap_app. apply elem_of_app. by left.
      * apply bool_decide_eq_false in Hdup.
        destruct (IH (table ++ [p]) Hkw) as [IH1 IH2]. split.
        -- intros post Hin. apply elem_of_cons in Hin as [->|Hin].
           ++ split; [apply list_elem_of_here|done].
           ++ destruct (IH1 post Hin) as (? & ? & Hnin).
              split; [by apply list_elem_of_further|]. split; [done|].
              intros Hin'. apply Hnin. rewrite fmap_app. apply elem_of_app. by left.
        -- intros post Hin Hpm.
           rewrite (assoc_L (++) table [p] _ : table ++ p :: _ = (table ++ [p]) ++ _).
           apply elem_of_cons in Hin as [->|Hin]; [|by apply IH2].
           rewrite !fmap_app. apply elem_of_app. left. apply elem_of_app. right.
           cbn. apply list_elem_of_here.
    + destruct (IH table Hkw) as [IH1 IH2]. split.
      * intros post Hin. destruct (IH1 post Hin) as (? & ? & ?).
        split; [by apply list_elem_of_further|done].
      * intros post Hin Hpm. apply elem_of_cons in Hin as [->|Hin]; [congruence|].
        by apply IH2.
Qed.

(** C7, amended: what [run_scraping_job] does with the fetched posts of a
    job that has keywords (and no comments to fetch).  The rows it adds are
    the fetched posts that match a keyword and whose id was not stored by
    then, in the order they came; every fetched post that matches has a row
    with its id afterwards; a post that matches no keyword is not stored.
    When the generator of the posts ends, the job is completed, its recorded
    [posts_scraped] is the number of rows added, and there is one recorded
    error for each matching post that was not added and none for the posts
    that match no keyword.  When the generator raises, the job is failed and
    its recorded [posts_scraped] stays what it was, whatever was added. *)
Theorem run_scraping_job_filters_by_keywords (scraper : Scraper) (job : ScrapingJob)
    (row : ScrapingJobDB) (w : World) :
  keywords job ≠ [] →
  include_comments job = false →
  scraping_jobs (database w) !! job_id job = Some row →
  let gen := scrape_posts scraper (target job) (max_posts job) in
  let table := scraped_posts (database w) in
  let added := kept (keywords job) table (yielded gen) in
  let matching :=
    filter (fun post => _matches_keywords (post_content post) (keywords job) = true)
           (yielded gen) in
  let w' := exec (run_scraping_job scraper job) w in
  scraped_posts (database w') = table ++ added
  ∧ (∀ post, post ∈ added →
       post ∈ yielded gen
       ∧ _matches_keywords (post_content post) (keywords job) = true
       ∧ post_id post ∉ post_id <$> table)
  ∧ (∀ post, post ∈ yielded gen →
       _matches_keywords (post_content post) (keywords job) = true →
       post_id post ∈ post_id <$> scraped_posts (database w'))
  ∧ ∃ row',
      scraping_jobs (database w') !! job_id job = Some row'
      ∧ match failure gen with
        | None =>
            row_status row' = "completed"
            ∧ row_posts_scraped row' = Z.of_nat (List.length added)
            ∧ (List.length (row_errors row') + List.length added
               = List.length matching)%nat
        | Some e =>
            row_status row' = "failed"
            ∧ row_posts_scraped row' = row_posts_scraped row
            ∧ ∃ earlier,
                row_errors row' = earlier ++ ["Job failed: " +:+ e]
                ∧ (List.length earlier + List.length added = List.length matching)%nat
        end.
Proof.
  intros Hkw Hnc Hrow. cbn zeta.
  destruct (kept_spec (keywords job)
              (yielded (scrape_posts scraper (target job) (max_posts job)))
              (scraped_posts (database w)) Hkw) as [Hk1 Hk2].
  remember (exec (run_scraping_job scraper job) w) as w' eqn:Hw'.
  unfold exec, run_scraping_job, bind at 1, run_scraping_job_enter, bind at 1, now,
    bind at 1, get_world in Hw'. cbn [ret] in Hw'.
  rewrite update_job_status_run, Hrow in Hw'.
  set (w0 := mkWorld _ _ _ _) in Hw'.
  assert (Hp0 : scraped_posts (database w0) = scraped_posts (database w)) by done.
  assert (Hrow0 : scraping_jobs (database w0) !! job_id job
                  = Some (apply_update "running"
                            (mkUpdate (Some (utcnow w)) None None None None None) row)).
  { subst w0. cbn. apply lookup_insert_eq. }
  unfold run_scraping_job_resume, bind at 1 in Hw'. cbn [ret] in Hw'.
  unfold bind at 1 in Hw'.
  destruct (process_posts_kept scraper job
              (yielded (scrape_posts scraper (target job) (max_posts job)))
              (mkResult 0 0 [] false) w0 Hkw Hnc)
    as (r1 & errs & Hloop & Hposts & Hcomments & Herrs & Hlen).
  rewrite Hloop in Hw'. clear Hloop.
  rewrite Hp0 in *. cbn in Hposts, Herrs.
  unfold bind at 1, now, bind at 1, get_world in Hw'. cbn [ret] in Hw'.
  destruct (failure _) eqn:Hf; unfold bind at 1 in Hw';
    rewrite update_job_status_run in Hw'; unfold stored in Hw';
    cbn [ret snd database scraping_jobs scraped_posts manager utcnow network] in Hw';
    rewrite Hrow0 in Hw'; subst w';
    cbn [ret snd database scraping_jobs scraped_posts manager utcnow network];
    (split; [done|]); (split; [exact Hk1|]); (split; [exact Hk2|]);
    eexists; (split; [apply lookup_insert_eq|]); cbn.
  - split; [done|]. split; [done|]. exists errs. rewrite Herrs. done.
  - split; [done|]. split; [lia|]. by rewrite Herrs.
Qed.

End Python.

(** * The properties on sample data

    The samples are ASCII text, on which [str.lower] is [lower_ascii]. *)

Lemma matches_keywords_iff_witness :
  _matches_keywords lower_ascii "Learning RUST today" ["python"; "Rust"] = true
  ∧ _matches_keywords lower_ascii "Python packaging news" ["go"; ""] = true.
Proof.
  split.
  - destruct (matches_keywords_iff lower_ascii "Learning RUST today" ["python"; "Rust"])
      as [H _].
    apply H. exists "Rust". split.
    + exact (bool_decide_unpack ("Rust" ∈ ["python"; "Rust"]) I).
    + exists "learning ", " today". reflexivity.
  - destruct (matches_keywords_iff lower_ascii "Python packaging news" ["go"; ""])
      as (_ & _ & H).
    apply (H ""); [|reflexivity]. exact (bool_decide_unpack ("" ∈ ["go"; ""]) I).
Defined.

Lemma run_scraping_job_accounts_witness :
  (∃ r w', run_scraping_job lower_ascii web_ok sample_job world_job_created = (Return r, w')
           ∧ comments_scraped r = 0%Z ∧ success r = true)
  ∧ (∃ r w', run_scraping_job lower_ascii web_down sample_job world_job_created
             = (Return r, w')
             ∧ posts_scraped r = 0%Z ∧ comments_scraped r = 0%Z).
Proof.
  split.
  - destruct (run_scraping_job_accounts lower_ascii web_ok sample_job world_job_created)
      as (r & w' & added & H & _ & Hs & Hc & _).
    exists r, w'. split; [exact H|].
    destruct (Hc eq_refl) as (_ & _ & _ & Hc'). split; [apply Hc'; reflexivity|].
    apply Hs. reflexivity.
  - destruct (run_scraping_job_accounts lower_ascii web_down sample_job world_job_created)
      as (r & w' & added & H & _ & _ & _ & Hf & _).
    exists r, w'. split; [exact H|]. apply Hf. discriminate.
Defined.

Lemma run_scraping_job_final_row_witness :
  ∃ r w' row',
    run_scraping_job lower_ascii web_down sample_job world_job_created = (Return r, w')
    ∧ scraping_jobs (database w') !! "job-1" = Some row'
    ∧ row_status row' = "failed" ∧ row_posts_scraped row' = 0%Z.
Proof.
  destruct (run_scraping_job_final_row lower_ascii web_down sample_job (job_row sample_job)
              world_job_created eq_refl)
    as (r & w' & row' & H & Hrow & _ & _ & _ & Hst & _ & Hn & _).
  exists r, w', row'. split; [exact H|]. split; [exact Hrow|]. split; [exact Hst|exact Hn].
Defined.

Lemma run_scraping_job_persists_filtered_witness :
  scraped_posts (database (exec (run_scraping_job lower_ascii web_ok
                                   (with_keywords sample_job ["rust"])) world_job_created))
  = [post_rust].
Proof.
  destruct (run_scraping_job_persists_filtered lower_ascii web_ok
              (with_keywords sample_job ["rust"]) world_job_created eq_refl) as [H _].
  rewrite H. reflexivity.
Defined.

Lemma run_job_with_fallback_settles_witness :
  ∃ w' row',
    _run_job_with_fallback sample_job None world_job_created = (Return tt, w')
    ∧ scraping_jobs (database w') !! "job-1" = Some row'
    ∧ row_status row' = "completed"
    ∧ scraped_posts (database w') = [post_rust; post_python].
Proof.
  destruct (run_job_with_fallback_settles lower_ascii sample_job None (job_row sample_job)
              world_job_created eq_refl)
    as (w' & row' & H & _ & _ & Hrow & _ & _ & _ & Hst & _ & Hposts & _).
  exists w', row'. split; [exact H|]. split; [exact Hrow|]. split; [exact Hst|exact Hposts].
Defined.

Lemma job_without_row_records_nothing_witness :
  scraping_jobs (database (exec (run_scraping_job lower_ascii web_ok sample_job) world_reddit))
  = scraping_jobs (database world_reddit).
Proof.
  destruct (job_without_row_records_nothing lower_ascii web_ok sample_job world_reddit
              eq_refl) as (H & _).
  exact H.
Defined.



(** C7, the claim as stated fails.  The web scraper fetches a post with
    "Rust" in it and then fails: the post is persisted, the job is marked
    failed and its recorded [posts_scraped] is 0, not 1. *)
Lemma keyword_filter_claim_fails : ¬ keyword_filter_claim lower_ascii.
Proof.
  intros Hclaim.
  destruct (Hclaim web_down keyword_job world_keyword_job)
    as [_ (row & Hrow & Hcount)].
  - discriminate.
  - reflexivity.
  - eexists. reflexivity.
  - reflexivity.
  - vm_compute in Hrow. injection Hrow as <-. vm_compute in Hcount. discriminate Hcount.
Qed.

Lemma run_scraping_job_filters_by_keywords_witness :
  scraped_posts (database (exec (run_scraping_job lower_ascii web_ok keyword_job)
                             world_keyword_job)) = [post_rust]
  ∧ scraped_posts (database (exec (run_scraping_job lower_ascii web_repeats keyword_job)
                               world_keyword_job)) = [post_rust]
  ∧ ∃ row', scraping_jobs (database (exec (run_scraping_job lower_ascii web_repeats keyword_job)
                                       world_keyword_job)) !! "job-2" = Some row'
            ∧ row_posts_scraped row' = 1%Z
            ∧ List.length (row_errors row') = 1%nat.
Proof.
  assert (Hkw : keywords keyword_job ≠ []) by discriminate.
  destruct (run_scraping_job_filters_by_keywords lower_ascii web_ok keyword_job
              (job_row keyword_job) world_keyword_job Hkw eq_refl eq_refl) as (H1 & _).
  destruct (run_scraping_job_filters_by_keywords lower_ascii web_repeats keyword_job
              (job_row keyword_job) world_keyword_job Hkw eq_refl eq_refl)
    as (H2 & _ & _ & row' & Hrow & Hst & Hn & He).
  split; [rewrite H1; reflexivity|]. split; [rewrite H2; reflexivity|].
  exists row'. split; [exact Hrow|]. split; [exact Hn|].
  match type of He with
  | (_ + ?a = ?b)%nat =>
      let a' := eval vm_compute in a in
      let b' := eval vm_compute in b in
      change (List.length (row_errors row') + a' = b')%nat in He
  end.
  lia.
Defined.
